(** * SprintTap: the room round-lifecycle protocol of [server.py]

    A shallow embedding of the WebSocket handler [ws_room], of [broadcast],
    [end_round_after] and [finalize_round], and the properties of the round
    protocol that hold (or fail) on that code.

    Conventions of the embedding.
    - A Python [float] is an IEEE binary64 number: Rocq's primitive [float].
    - A Python [int] is unbounded: [Z].
    - A Python [dict] keeps its keys in insertion order, and that order is
      observable here (presence lists, ties of the ranking): a dict with
      string keys is an association list, see [PyDict].
    - The value [json.loads] returns is a [json] tree; Python's [None] is
      [JNull].
    - A Python [str] is a sequence of code points: it is the Rocq string of
      its UTF-8 encoding (a lone surrogate encoded like any other code
      point), which is what a Rocq string literal holds. Equal strings have
      equal encodings, and the characters of a string are the code points
      of its encoding, see [code_points].
    - One pass through the body of the [while True] loop, the code run at
      connection, the [except WebSocketDisconnect] block and the body of
      [finalize_round] are each one transition on the room: the sends they
      await are recorded in the list of effects they return, and no other
      coroutine runs in between.
    - The transport is outside: a frame arrives or the connection closes
      ([WebSocketDisconnect] out of [receive_text]), and a text the handler
      sends on its own socket is sent. *)

From Stdlib Require Import ZArith List String Ascii Bool Lia.
From Stdlib Require Import Sorting.Sorted Sorting.Permutation.
From Stdlib Require Import Floats.PrimFloat Floats.FloatOps Floats.SpecFloat.
From Stdlib Require Import Floats.FloatAxioms.
Import ListNotations.

Set Warnings "-register-all".

Local Open Scope string_scope.
Local Open Scope list_scope.
Local Open Scope Z_scope.

(** ** Python dictionaries with string keys, in insertion order *)

Module PyDict.

Section Dict.
Context {V : Type}.

Definition dict : Type := list (string * V).

(** [d.get(k)] *)
Fixpoint get (d : dict) (k : string) : option V :=
  match d with
  | [] => None
  | (k', v) :: rest => if String.eqb k' k then Some v else get rest k
  end.

(** [k in d] *)
Definition contains (d : dict) (k : string) : bool :=
  match get d k with Some _ => true | None => false end.

(** [d[k] = v]: an existing key keeps its place, a new key goes last. *)
Fixpoint setitem (d : dict) (k : string) (v : V) : dict :=
  match d with
  | [] => [(k, v)]
  | (k', v') :: rest =>
      if String.eqb k' k then (k, v) :: rest
      else (k', v') :: setitem rest k v
  end.

(** [d.pop(k, None)], the value dropped. *)
Fixpoint pop (d : dict) (k : string) : dict :=
  match d with
  | [] => []
  | (k', v') :: rest =>
      if String.eqb k' k then pop rest k else (k', v') :: pop rest k
  end.

(** [list(d.keys())], [list(d.values())], [len(d)] *)
Definition keys (d : dict) : list string := map fst d.
Definition values (d : dict) : list V := map snd d.
Definition len (d : dict) : nat := List.length d.

(** What Python guarantees of every dict: no key twice. *)
Definition wf (d : dict) : Prop := NoDup (keys d).
End Dict.

Arguments dict : clear implicits.

End PyDict.

Import PyDict.

(** ** Values, exceptions and the builtin conversions *)

(** The Python value of a JSON document. *)
Inductive json : Type :=
| JNull
| JBool (b : bool)
| JInt (n : Z)
| JFloat (x : float)
| JStr (s : string)
| JList (l : list json)
| JDict (d : list (string * json)).

(** The exceptions the handler can meet other than [WebSocketDisconnect]. *)
Inductive exn : Type :=
| JSONDecodeError
| AttributeError
| TypeError
| ValueError
| OverflowError.

Inductive outcome (A : Type) : Type :=
| Ret (a : A)
| Raise (e : exn).

Arguments Ret {A} a.
Arguments Raise {A} e.

(** The text of a frame, as [json.loads] sees it. *)
Inductive frame : Type :=
| Unparsable
| Json (v : json).

Definition json_loads (raw : frame) : outcome json :=
  match raw with
  | Unparsable => Raise JSONDecodeError
  | Json v => Ret v
  end.

(** [msg.get]: only a dict has the attribute. *)
Definition as_dict (msg : json) : outcome (dict json) :=
  match msg with
  | JDict d => Ret d
  | _ => Raise AttributeError
  end.

(** [msg.get(k, default)] on a dict. *)
Definition get_default (msg : dict json) (k : string) (default : json) : json :=
  match get msg k with
  | Some v => v
  | None => default
  end.

(** [typ == "..."] *)
Definition is_str (v : json) (s : string) : bool :=
  match v with
  | JStr s' => String.eqb s' s
  | _ => false
  end.

(** The float nearest to an integer (ties to even), infinite past the
    largest float, where Python raises [OverflowError] instead: see
    [py_float]. *)
Definition float_of_Z (n : Z) : float :=
  SF2Prim (binary_normalize prec emax n 0 false).

(** The integer part of a finite float, towards zero. *)
Definition trunc_float (x : float) : outcome Z :=
  match Prim2SF x with
  | S754_zero _ => Ret 0
  | S754_infinity _ => Raise OverflowError
  | S754_nan => Raise ValueError
  | S754_finite s m e =>
      let a := match e with
               | Zneg p => Z.shiftr (Zpos m) (Zpos p)
               | _ => Z.shiftl (Zpos m) e
               end in
      Ret (if s then - a else a)
  end.

(** [x >= y] and [x <= y] on floats: false as soon as one side is a NaN. *)
Definition float_ge (x y : float) : bool := PrimFloat.leb y x.
Definition float_le (x y : float) : bool := PrimFloat.leb x y.

(** A byte that continues a character of a UTF-8 encoding: [10xxxxxx]. *)
Definition is_continuation (c : ascii) : bool :=
  match c with
  | Ascii _ _ _ _ _ _ b6 b7 => b7 && negb b6
  end.

(** The continuation bytes a string starts with, and the characters after
    them: a byte that is not a continuation byte starts a character, which
    goes on over the continuation bytes that follow it. *)
Fixpoint split_code_points (s : string) : string * list string :=
  match s with
  | EmptyString => (EmptyString, [])
  | String c rest =>
      let '(k, l) := split_code_points rest in
      if is_continuation c then (String c k, l)
      else (EmptyString, String c k :: l)
  end.

(** The characters of a Python [str], each a string of one code point.
    (Continuation bytes at the head of a string are no encoding of a
    [str]; they are kept together.) *)
Definition code_points (s : string) : list string :=
  let '(k, l) := split_code_points s in
  match k with
  | EmptyString => l
  | _ => k :: l
  end.

(** What iterating over a [str] yields: its characters, as strings. *)
Definition chars (s : string) : list json := map JStr (code_points s).

(** The encoding itself, to state that [code_points] gives the code points
    back: the byte of a number below 256, the UTF-8 encoding of a code
    point, and the string of a sequence of code points. *)
Definition byte (n : Z) : ascii := ascii_of_N (Z.to_N n).

Definition utf8 (n : Z) : string :=
  if n <? 128 then String (byte n) EmptyString
  else if n <? 2048 then
    String (byte (192 + n / 64))
      (String (byte (128 + n mod 64)) EmptyString)
  else if n <? 65536 then
    String (byte (224 + n / 4096))
      (String (byte (128 + (n / 64) mod 64))
         (String (byte (128 + n mod 64)) EmptyString))
  else
    String (byte (240 + n / 262144))
      (String (byte (128 + (n / 4096) mod 64))
         (String (byte (128 + (n / 64) mod 64))
            (String (byte (128 + n mod 64)) EmptyString))).

Definition is_code_point (n : Z) : Prop := 0 <= n < 1114112.

Fixpoint encode (cps : list Z) : string :=
  match cps with
  | [] => EmptyString
  | n :: rest => (utf8 n ++ encode rest)%string
  end.

(** Iteration, as a [for] loop does it: a list gives its elements, a string
    its characters, a dict its keys; nothing else is iterable. *)
Definition py_iter (v : json) : outcome (list json) :=
  match v with
  | JList l => Ret l
  | JStr s => Ret (chars s)
  | JDict d => Ret (map (fun kv => JStr (fst kv)) d)
  | _ => Raise TypeError
  end.

(** ** Rooms, messages and effects *)

(** A WebSocket object is known by its identity; whether its
    [application_state] is [CONNECTED] is read from the environment. *)
Definition websocket : Type := nat.

(** A value of [room["results"]]. *)
Record result : Type := mkResult {
  reported : Z;
  validated : Z;
  offset : float
}.

(** An element of the ranking: [{"user", "validated", "reported"}]. *)
Record rank_entry : Type := mkRank {
  entry_user : string;
  entry_validated : Z;
  entry_reported : Z
}.

(** A room dict; the key ["last_ranking"] is absent until a round ends. *)
Record room : Type := mkRoom {
  clients : dict websocket;
  results : dict result;
  start_time : option float;
  duration : Z;
  last_ranking : option (list rank_entry)
}.

(** The messages the server sends, named by their ["type"]. *)
Inductive message : Type :=
| Presence (users : list string)
| TimesyncResp (server_time : float)
| RoomInfo (users : list string) (start_time : option float) (duration : Z)
| Start (start_time : float) (duration : Z)
| PartialResult (user : string) (validated : Z)
| RoundEnd (ranking : list rank_entry)
| Error (reason : string).

(** What a transition does besides changing the rooms: texts sent, and
    [asyncio.create_task(end_round_after(room_id, when))]. *)
Inductive effect : Type :=
| SendText (ws : websocket) (m : message)
| CreateTask (room_id : string) (when : float).

(** What a transition reads from outside: the clock, and which sockets are
    connected (a send that raises inside [broadcast] is swallowed there, and
    counts as a socket that is not). *)
Record env : Type := mkEnv {
  now : float;
  connected : websocket -> bool
}.

Definition set_clients (r : room) (c : dict websocket) : room :=
  mkRoom c (results r) (start_time r) (duration r) (last_ranking r).
Definition set_results (r : room) (x : dict result) : room :=
  mkRoom (clients r) x (start_time r) (duration r) (last_ranking r).
Definition set_start_time (r : room) (t : option float) : room :=
  mkRoom (clients r) (results r) t (duration r) (last_ranking r).
Definition set_last_ranking (r : room) (k : list rank_entry) : room :=
  mkRoom (clients r) (results r) (start_time r) (duration r) (Some k).

(** ** [sorted(..., key=lambda x: (-x["validated"], -x["reported"]))] *)

(** The key of the ranking and Python's order on pairs. *)
Definition rank_key (x : rank_entry) : Z * Z :=
  (- entry_validated x, - entry_reported x).

Definition key_lt (a b : Z * Z) : bool :=
  (fst a <? fst b) || ((fst a =? fst b) && (snd a <? snd b)).

(** [sorted] is stable: an element goes before the first one whose key is
    not smaller than its own, and the list is built from its end. *)
Fixpoint insert_by {A : Type} (key : A -> Z * Z) (x : A) (l : list A) : list A :=
  match l with
  | [] => [x]
  | y :: rest =>
      if key_lt (key y) (key x) then y :: insert_by key x rest
      else x :: y :: rest
  end.

Definition sorted {A : Type} (key : A -> Z * Z) (l : list A) : list A :=
  fold_right (insert_by key) [] l.

(** Not after, in the order of the keys: the key of the second is not below
    the key of the first. *)
Definition not_after {A : Type} (key : A -> Z * Z) (a b : A) : Prop :=
  key_lt (key b) (key a) = false.

(** ** [broadcast] and [finalize_round] *)

(** The sends of [broadcast] once the room is found. *)
Definition broadcast_room (e : env) (r : room) (m : message) : list effect :=
  map (fun ws => SendText ws m) (filter (connected e) (values (clients r))).

Definition broadcast (e : env) (rooms : dict room) (room_id : string)
    (m : message) : list effect :=
  match get rooms room_id with
  | None => []
  | Some r => broadcast_room e r m
  end.

(** Lines 139-141: a zero entry for every client without one. *)
Definition zero_result : result := mkResult 0 0 0%float.

Definition synthesize (res : dict result) (users : list string) : dict result :=
  fold_left (fun acc user =>
               if contains acc user then acc else setitem acc user zero_result)
            users res.

(** Lines 143-146. *)
Definition build_ranking (res : dict result) : list rank_entry :=
  sorted rank_key
    (map (fun ur => mkRank (fst ur) (validated (snd ur)) (reported (snd ur))) res).

(** The body of [finalize_round] on the room it found. The entries added to
    [results] are in the room while the ranking is broadcast, and go with
    the rest when [results] is replaced. *)
Definition finalize_room (e : env) (r : room) : room * list effect :=
  let res := synthesize (results r) (keys (clients r)) in
  let ranking := build_ranking res in
  let r1 := set_last_ranking (set_results r res) ranking in
  let out := broadcast_room e r1 (RoundEnd ranking) in
  (set_results (set_start_time r1 None) [], out).

Definition finalize_round (e : env) (rooms : dict room) (room_id : string)
    : dict room * list effect :=
  match get rooms room_id with
  | None => (rooms, [])
  | Some r =>
      let '(r', out) := finalize_room e r in
      (setitem rooms room_id r', out)
  end.

(** [end_round_after]: how long it sleeps when started at clock [t]
    ([max(0, when - now())]), and what it does on waking. *)
Definition end_round_sleep (t when : float) : float :=
  let d := PrimFloat.sub when t in
  if PrimFloat.ltb 0%float d then d else 0%float.

Definition end_round_after (e : env) (rooms : dict room) (room_id : string)
    : dict room * list effect :=
  finalize_round e rooms room_id.

(** Line 104: the end of the window of a round that starts at [start] in
    room [r], [start + room["duration"]]. The duration is the int 15 of
    line 52, the only value the code gives it, and its conversion to a
    float is exact. *)
Definition window_end (r : room) (start : float) : float :=
  PrimFloat.add start (float_of_Z (duration r)).

(** ** The handler: state of the room, effects, and exceptions

    [ws_room] holds the room it found at connection in the variable [room];
    rooms are never removed nor replaced in [rooms], so that object is
    [rooms[room_id]] for as long as the handler lives, and a [broadcast] or
    [finalize_round] on [room_id] from inside the handler works on it. A
    computation of the handler is therefore a function of the room. An
    exception leaves the room as the code before it made it. *)

Definition M (A : Type) : Type := room -> outcome A * room * list effect.

Definition ret {A : Type} (a : A) : M A := fun r => (Ret a, r, []).

Definition bind {A B : Type} (m : M A) (k : A -> M B) : M B :=
  fun r =>
    match m r with
    | (Ret a, r1, o1) => let '(b, r2, o2) := k a r1 in (b, r2, o1 ++ o2)
    | (Raise x, r1, o1) => (Raise x, r1, o1)
    end.

Definition lift {A : Type} (c : outcome A) : M A := fun r => (c, r, []).
Definition read : M room := fun r => (Ret r, r, []).
Definition modify (f : room -> room) : M unit := fun r => (Ret tt, f r, []).
Definition emit (o : list effect) : M unit := fun r => (Ret tt, r, o).

Declare Scope handler_scope.
Delimit Scope handler_scope with handler.
Notation "x <- c1 ;; c2" := (bind c1 (fun x => c2))
  (at level 61, c1 at next level, right associativity) : handler_scope.
Notation "c1 ;; c2" := (bind c1 (fun _ => c2))
  (at level 61, right associativity) : handler_scope.

Section Handler.

(** How [int] and [float] read a string is Python's own business: the
    handler is modelled for whatever they do. [None] is [ValueError]. *)
Variable int_of_str : string -> option Z.
Variable float_of_str : string -> option float.

(** [int(v)] *)
Definition py_int (v : json) : outcome Z :=
  match v with
  | JInt n => Ret n
  | JBool b => Ret (if b then 1 else 0)
  | JFloat x => trunc_float x
  | JStr s =>
      match int_of_str s with Some n => Ret n | None => Raise ValueError end
  | _ => Raise TypeError
  end.

(** [float(v)] *)
Definition py_float (v : json) : outcome float :=
  match v with
  | JFloat x => Ret x
  | JInt n =>
      let x := float_of_Z n in
      if PrimFloat.is_infinity x then Raise OverflowError else Ret x
  | JBool b => Ret (if b then 1%float else 0%float)
  | JStr s =>
      match float_of_str s with Some x => Ret x | None => Raise ValueError end
  | _ => Raise TypeError
  end.

(** Lines 105-108: the loop over the timestamps, from the count so far. *)
Fixpoint count_valid (start end_ client_offset : float)
    (timestamps : list json) (valid : Z) : outcome Z :=
  match timestamps with
  | [] => Ret valid
  | t_local :: rest =>
      match py_float t_local with
      | Raise x => Raise x
      | Ret t =>
          let t_server := PrimFloat.add t client_offset in
          count_valid start end_ client_offset rest
            (if float_ge t_server start && float_le t_server end_
             then valid + 1 else valid)
      end
  end.

Variable e : env.
Variable room_id : string.
Variable username : string.
Variable ws : websocket.

Local Open Scope handler_scope.

Definition send_text (m : message) : M unit := emit [SendText ws m].

(** [broadcast(room_id, m)] and [finalize_round(room_id)] from inside the
    handler. *)
Definition broadcast_here (m : message) : M unit :=
  fun r => (Ret tt, r, broadcast_room e r m).

Definition finalize_here : M unit :=
  fun r => let '(r', out) := finalize_room e r in (Ret tt, r', out).

(** Lines 81-88. *)
Definition on_request_start : M unit :=
  let lead := 5%float in
  let start_time' := PrimFloat.add (now e) lead in
  modify (fun r => set_start_time r (Some start_time')) ;;
  modify (fun r => set_results r []) ;;
  r <- read ;;
  broadcast_here (Start start_time' (duration r)) ;;
  emit [CreateTask room_id
          (PrimFloat.add
             (PrimFloat.add start_time' (float_of_Z (duration r))) 2%float)].

(** Lines 98-112: the submission is read, counted and stored. *)
Definition store_result (msg : dict json) (start : float) : M unit :=
  client_count <- lift (py_int (get_default msg "count" (JInt 0))) ;;
  client_offset <- lift (py_float (get_default msg "offset" (JFloat 0%float))) ;;
  let timestamps := get_default msg "timestamps" (JList []) in
  r <- read ;;
  let end_ := window_end r start in
  ts <- lift (py_iter timestamps) ;;
  valid <- lift (count_valid start end_ client_offset ts 0) ;;
  modify (fun r => set_results r
            (setitem (results r) username
               (mkResult client_count valid client_offset))) ;;
  broadcast_here (PartialResult username valid).

(** Lines 94-115. *)
Definition on_result (msg : dict json) : M unit :=
  r <- read ;;
  match start_time r with
  | None => send_text (Error "no active round")
  | Some start =>
      store_result msg start ;;
      r <- read ;;
      if Nat.eqb (len (results r)) (len (clients r))
      then finalize_here
      else ret tt
  end.

(** Lines 60-117: one message. [Ret tt] goes back to [receive_text];
    [Raise] leaves the loop, and the coroutine with it, since only
    [WebSocketDisconnect] is caught. *)
Definition ws_room_message (raw : frame) : M unit :=
  v <- lift (json_loads raw) ;;
  msg <- lift (as_dict v) ;;
  let typ := get_default msg "type" JNull in
  if is_str typ "timesync" then
    send_text (TimesyncResp (now e))
  else if is_str typ "join" then
    r <- read ;;
    send_text (RoomInfo (keys (clients r)) (start_time r) (duration r))
  else if is_str typ "request_start" then
    on_request_start
  else if is_str typ "result" then
    on_result msg
  else ret tt.

(** Lines 54-57 as an operation on the room found or made at line 52. *)
Definition ws_room_join (r : room) : room * list effect :=
  let r1 := set_clients r (setitem (clients r) username ws) in
  (r1, broadcast_room e r1 (Presence (keys (clients r1)))).

(** Lines 119-122. *)
Definition ws_room_disconnect (r : room) : room * list effect :=
  let r1 := set_clients r (pop (clients r) username) in
  let r2 := set_results r1 (pop (results r1) username) in
  (r2, broadcast_room e r2 (Presence (keys (clients r2)))).

End Handler.

(** Line 52: [rooms.setdefault(room_id, {...})]. *)
Definition new_room : room := mkRoom [] [] None 15 None.

Definition setdefault (rooms : dict room) (room_id : string) : room :=
  match get rooms room_id with
  | Some r => r
  | None => new_room
  end.

(** Lines 52-57: the room is found or made, the client registered in it,
    and the presence broadcast. *)
Definition ws_room_accept (e : env) (rooms : dict room)
    (room_id username : string) (ws : websocket) : dict room * list effect :=
  let room := setdefault rooms room_id in
  let room1 := set_clients room (setitem (clients room) username ws) in
  let rooms1 := setitem rooms room_id room1 in
  (rooms1, broadcast e rooms1 room_id (Presence (keys (clients room1)))).

(** ** The server: rooms, live handlers and pending timers *)

(** A live handler is a coroutine of [ws_room] between its registration and
    its end: the arguments it was called with. *)
Definition handler : Type := (string * string * websocket)%type.

Definition handler_eqb (a b : handler) : bool :=
  let '(ra, ua, wa) := a in
  let '(rb, ub, wb) := b in
  String.eqb ra rb && String.eqb ua ub && Nat.eqb wa wb.

Definition task_eqb (a b : string * float) : bool :=
  String.eqb (fst a) (fst b) && PrimFloat.Leibniz.eqb (snd a) (snd b).

Fixpoint remove_first {A : Type} (eqb : A -> A -> bool) (x : A) (l : list A)
    : list A :=
  match l with
  | [] => []
  | y :: rest => if eqb x y then rest else y :: remove_first eqb x rest
  end.

Record server : Type := mkServer {
  rooms : dict room;
  handlers : list handler;
  tasks : list (string * float)
}.

Definition initial : server := mkServer [] [] [].

(** What can happen to the server: a client connects, a frame arrives on a
    live connection, a live connection closes, a pending
    [end_round_after] task wakes up. *)
Inductive event : Type :=
| Connect (room_id username : string) (ws : websocket)
| Receive (room_id username : string) (ws : websocket) (raw : frame)
| Disconnect (room_id username : string) (ws : websocket)
| TimerFires (room_id : string) (when : float).

Definition created_tasks (out : list effect) : list (string * float) :=
  flat_map (fun o => match o with
                     | CreateTask r w => [(r, w)]
                     | SendText _ _ => []
                     end) out.

Section Server.

Variable int_of_str : string -> option Z.
Variable float_of_str : string -> option float.

(** One event; [None] when it cannot happen in this state (a socket
    already in use, a frame on a connection that is not live, a timer that
    is not pending). *)
Definition step (e : env) (s : server) (ev : event)
    : option (server * list effect) :=
  match ev with
  | Connect room_id username ws =>
      if existsb (fun h => Nat.eqb (snd h) ws) (handlers s) then None
      else
        let '(rooms', out) :=
          ws_room_accept e (rooms s) room_id username ws in
        Some (mkServer rooms' (handlers s ++ [(room_id, username, ws)])
                       (tasks s), out)
  | Receive room_id username ws raw =>
      if existsb (handler_eqb (room_id, username, ws)) (handlers s) then
        match get (rooms s) room_id with
        | None => None
        | Some r =>
            let '(res, r', out) :=
              ws_room_message int_of_str float_of_str e room_id username ws
                raw r in
            let live :=
              match res with
              | Ret _ => handlers s
              | Raise _ =>
                  remove_first handler_eqb (room_id, username, ws) (handlers s)
              end in
            Some (mkServer (setitem (rooms s) room_id r') live
                           (tasks s ++ created_tasks out), out)
        end
      else None
  | Disconnect room_id username ws =>
      if existsb (handler_eqb (room_id, username, ws)) (handlers s) then
        match get (rooms s) room_id with
        | None => None
        | Some r =>
            let '(r', out) := ws_room_disconnect e username r in
            Some (mkServer (setitem (rooms s) room_id r')
                           (remove_first handler_eqb (room_id, username, ws)
                              (handlers s))
                           (tasks s), out)
        end
      else None
  | TimerFires room_id when =>
      if existsb (task_eqb (room_id, when)) (tasks s) then
        let '(rooms', out) := end_round_after e (rooms s) room_id in
        Some (mkServer rooms' (handlers s)
                       (remove_first task_eqb (room_id, when) (tasks s)), out)
      else None
  end.

(** A run: each event with the environment it meets. *)
Fixpoint run (s : server) (evs : list (env * event))
    : option (server * list effect) :=
  match evs with
  | [] => Some (s, [])
  | (e, ev) :: rest =>
      match step e s ev with
      | None => None
      | Some (s1, o1) =>
          match run s1 rest with
          | None => None
          | Some (s2, o2) => Some (s2, o1 ++ o2)
          end
      end
  end.

End Server.

(** ** The notions the properties are stated with *)

(** The timestamps of a submission as floats: [float(t_local)] on each. *)
Fixpoint floats_of (float_of_str : string -> option float) (l : list json)
    : outcome (list float) :=
  match l with
  | [] => Ret []
  | v :: rest =>
      match py_float float_of_str v with
      | Raise x => Raise x
      | Ret t =>
          match floats_of float_of_str rest with
          | Raise x => Raise x
          | Ret ts => Ret (t :: ts)
          end
      end
  end.

(** The specification's words: a timestamp [t] is valid when
    [startTime <= t + offset <= endTime], and the validated count is the
    number of valid timestamps. *)
Definition in_window (startTime endTime offset_ t : float) : bool :=
  PrimFloat.leb startTime (PrimFloat.add t offset_)
  && PrimFloat.leb (PrimFloat.add t offset_) endTime.

Definition spec_validated_count (startTime endTime offset_ : float)
    (ts : list float) : Z :=
  Z.of_nat (List.length (filter (in_window startTime endTime offset_) ts)).

(** The room once the submission of [username] is stored, line 110. *)
Definition stored (username : string) (r : room) (c valid : Z) (off : float)
    : room :=
  set_results r (setitem (results r) username (mkResult c valid off)).

(** The entries of the ranking before they are sorted. *)
Definition entries_of (res : dict result) : list rank_entry :=
  map (fun ur => mkRank (fst ur) (validated (snd ur)) (reported (snd ur))) res.

(** The order of the ranking: more validated taps first, then more
    reported taps. *)
Definition ranks_before (a b : rank_entry) : Prop :=
  entry_validated a > entry_validated b
  \/ (entry_validated a = entry_validated b
      /\ entry_reported a >= entry_reported b).

Definition tied (v c : Z) (x : rank_entry) : bool :=
  (entry_validated x =? v) && (entry_reported x =? c).

(** The number of [round_end] messages one socket is sent. *)
Definition round_ends_to (ws : websocket) (out : list effect) : nat :=
  List.length
    (filter (fun o => match o with
                      | SendText w (RoundEnd _) => Nat.eqb w ws
                      | _ => false
                      end) out).

(** Every key of [results] is a key of [clients], in dicts as Python keeps
    them. *)
Definition results_within_members (r : room) : Prop :=
  wf (clients r) /\ wf (results r)
  /\ incl (keys (results r)) (keys (clients r)).

(** The operations on a room: the code run at connection, the
    [except WebSocketDisconnect] block, and one message of the loop. *)
Inductive operation : Type :=
| Join (username : string) (ws : websocket)
| Leave (username : string)
| Message (username : string) (ws : websocket) (raw : frame).

Definition is_result_message (raw : frame) : bool :=
  match raw with
  | Json (JDict msg) => is_str (get_default msg "type" JNull) "result"
  | _ => false
  end.

(** The one condition a result submission needs: its sender is in
    [clients]. *)
Definition sender_is_member (op : operation) (r : room) : Prop :=
  match op with
  | Message username _ raw =>
      is_result_message raw = true -> In username (keys (clients r))
  | _ => True
  end.

Definition apply (int_of_str : string -> option Z)
    (float_of_str : string -> option float) (e : env) (room_id : string)
    (op : operation) (r : room) : room :=
  match op with
  | Join username ws => fst (ws_room_join e username ws r)
  | Leave username => fst (ws_room_disconnect e username r)
  | Message username ws raw =>
      snd (fst (ws_room_message int_of_str float_of_str e room_id username ws
                  raw r))
  end.

(** The shape of the room after a message, by its outcome. *)
Definition message_effect (username : string) (raw : frame) (r : room)
    (res : outcome unit * room * list effect) : Prop :=
  let '(o, r', out) := res in
  clients r' = clients r
  /\ match o with
     | Raise _ => r' = r /\ out = []
     | Ret _ =>
         results r' = results r \/ results r' = []
         \/ (is_result_message raw = true
             /\ exists x, results r' = setitem (results r) username x)
     end.

(** The name a handler goes by: its room and its username. *)
Definition name_of (h : handler) : string * string := fst h.

(** A connection comes under a name no live handler has. *)
Definition fresh_name (s : server) (ev : event) : Prop :=
  match ev with
  | Connect room_id username _ =>
      ~ In (room_id, username) (map name_of (handlers s))
  | _ => True
  end.

(** The server when names are unique: every room has its results within
    its members, every live handler has its username in the clients of its
    room, and no two live handlers have the same name. *)
Definition server_inv (s : server) : Prop :=
  (forall room_id r, get (rooms s) room_id = Some r -> results_within_members r)
  /\ (forall h, In h (handlers s) ->
        exists r, get (rooms s) (fst (fst h)) = Some r
                  /\ In (snd (fst h)) (keys (clients r)))
  /\ NoDup (map name_of (handlers s)).

(** Every connection of a run comes under a fresh name. *)
Fixpoint fresh_names (int_of_str : string -> option Z)
    (float_of_str : string -> option float) (s : server)
    (evs : list (env * event)) : Prop :=
  match evs with
  | [] => True
  | (e, ev) :: rest =>
      fresh_name s ev
      /\ match step int_of_str float_of_str e s ev with
         | Some (s1, _) => fresh_names int_of_str float_of_str s1 rest
         | None => True
         end
  end.

(** The fields of a result cannot be read: [int] of the count raises, or
    [float] of the offset, or the iteration over the timestamps, or [float]
    of one of them. *)
Definition unreadable (int_of_str : string -> option Z)
    (float_of_str : string -> option float) (msg : dict json) : Prop :=
  (exists x, py_int int_of_str (get_default msg "count" (JInt 0)) = Raise x)
  \/ (exists x, py_float float_of_str
                  (get_default msg "offset" (JFloat 0%float)) = Raise x)
  \/ (exists x, py_iter (get_default msg "timestamps" (JList [])) = Raise x)
  \/ (exists ts x, py_iter (get_default msg "timestamps" (JList [])) = Ret ts
                   /\ floats_of float_of_str ts = Raise x).

(** A malformed message, for a room: a text that is not JSON, a JSON value
    that is not an object, or a result in an active round whose fields
    cannot be read. *)
Definition malformed (int_of_str : string -> option Z)
    (float_of_str : string -> option float) (raw : frame) (r : room) : Prop :=
  match raw with
  | Unparsable => True
  | Json (JDict msg) =>
      is_str (get_default msg "type" JNull) "result" = true
      /\ start_time r <> None
      /\ unreadable int_of_str float_of_str msg
  | Json _ => True
  end.

(** A message that asks for nothing but its type. *)
Definition message_of_type (typ : string) : frame :=
  Json (JDict [("type", JStr typ)]).

(** ** Instances for the examples *)

(** A reading of strings for the examples, none of which puts a string
    where a number goes: no string is a number. *)
Definition no_int : string -> option Z := fun _ => None.
Definition no_float : string -> option float := fun _ => None.

(** The one-character string U+0661, ARABIC-INDIC DIGIT ONE, which
    [float] reads as 1.0: its encoding is the two bytes D9 A1. *)
Definition arabic_one : string :=
  String (ascii_of_nat 217) (String (ascii_of_nat 161) EmptyString).

(** A reading of strings as floats that knows that digit. *)
Definition float_of_arabic_one (s : string) : option float :=
  if String.eqb s arabic_one then Some 1%float else None.

(** Every socket connected, the clock at [t]. *)
Definition at_time (t : float) : env := mkEnv t (fun _ => true).

Definition result_fields (count : Z) (offset_ : float) (ts : list float)
    : dict json :=
  [("type", JStr "result"); ("count", JInt count); ("offset", JFloat offset_);
   ("timestamps", JList (map JFloat ts))].

Definition result_message (count : Z) (offset_ : float) (ts : list float)
    : frame :=
  Json (JDict (result_fields count offset_ ts)).

(** Alice and Bob in a round that started at 100 and ends at 115. *)
Definition round_of_two : room :=
  mkRoom [("alice", 1%nat); ("bob", 2%nat)] [] (Some 100%float) 15 None.

(** Alice alone, in the same round. *)
Definition round_of_one : room :=
  mkRoom [("alice", 1%nat)] [] (Some 100%float) 15 None.

(** Alice, Bob and Carol; Alice and Bob have submitted. *)
Definition round_of_three : room :=
  mkRoom [("alice", 1%nat); ("bob", 2%nat); ("carol", 3%nat)]
         [("alice", mkResult 5 4 0.5%float); ("bob", mkResult 9 6 0%float)]
         (Some 100%float) 15 None.

(** Alice and Bob between two rounds. *)
Definition idle_room : room :=
  mkRoom [("alice", 1%nat); ("bob", 2%nat)] [] None 15
         (Some [mkRank "bob" 6 9; mkRank "alice" 4 5]).

(** ** Further notions: queries, rooms in order, the server in order *)

(** A message that starts a round. *)
Definition is_start_message (raw : frame) : bool :=
  match raw with
  | Json (JDict msg) => is_str (get_default msg "type" JNull) "request_start"
  | _ => false
  end.

(** An effect is a text sent to the socket [ws]. *)
Definition sent_to (ws : websocket) (o : effect) : Prop :=
  exists m, o = SendText ws m.

(** The round of the room was closed by the message: it was open before
    and is not after. *)
Definition round_closed (r r' : room) : Prop :=
  start_time r <> None /\ start_time r' = None.

(** A room as the code keeps it: the duration it was made with; no result
    when no round is open; dicts without a repeated key; no negative count
    of validated taps; a last ranking that is in order. *)
Definition room_ok (r : room) : Prop :=
  duration r = 15
  /\ (start_time r = None -> results r = [])
  /\ wf (clients r)
  /\ wf (results r)
  /\ (forall u x, get (results r) u = Some x -> 0 <= validated x)
  /\ (forall k, last_ranking r = Some k -> StronglySorted ranks_before k).

(** The server as the code keeps it: every room in order, and a room for
    every live handler and for every pending timer. *)
Definition server_ok (s : server) : Prop :=
  wf (rooms s)
  /\ (forall room_id r, get (rooms s) room_id = Some r -> room_ok r)
  /\ (forall h, In h (handlers s) -> contains (rooms s) (fst (fst h)) = true)
  /\ (forall t, In t (tasks s) -> contains (rooms s) (fst t) = true).

(** The room an event is about, and the socket it comes on (a timer comes
    on none). *)
Definition room_of (ev : event) : string :=
  match ev with
  | Connect room_id _ _ => room_id
  | Receive room_id _ _ _ => room_id
  | Disconnect room_id _ _ => room_id
  | TimerFires room_id _ => room_id
  end.

Definition socket_of (ev : event) : option websocket :=
  match ev with
  | Connect _ _ ws => Some ws
  | Receive _ _ ws _ => Some ws
  | Disconnect _ _ ws => Some ws
  | TimerFires _ _ => None
  end.

(** The texts of [out] go to the socket [ws] or to clients of [r]. *)
Definition sends_within (ws : option websocket) (r : room)
    (out : list effect) : Prop :=
  forall w m, In (SendText w m) out ->
    ws = Some w \/ In w (values (clients r)).

(** ** A run for the examples *)

(** Alice, alone in room R, starts a round at clock 95 and submits three
    taps at clock 104, which ends the round; its timer is still pending. *)
Definition early_trace : list (env * event) :=
  [(at_time 95, Connect "R" "alice" 1%nat);
   (at_time 95, Receive "R" "alice" 1%nat (message_of_type "request_start"));
   (at_time 104, Receive "R" "alice" 1%nat
                   (result_message 3 0 [101; 102; 103]%float))].

Definition early_server : server :=
  mkServer [("R", mkRoom [("alice", 1%nat)] [] None 15
                    (Some [mkRank "alice" 3 3]))]
           [("R", "alice", 1%nat)] [("R", 117%float)].

Definition early_output : list effect :=
  [SendText 1%nat (Presence ["alice"]);
   SendText 1%nat (Start 100 15);
   CreateTask "R" 117;
   SendText 1%nat (PartialResult "alice" 3);
   SendText 1%nat (RoundEnd [mkRank "alice" 3 3])].

(** * Properties *)

(** ** Facts on dictionaries *)

Module PyDictFacts.

Section Facts.
Context {V : Type}.
Implicit Types (d : dict V) (k : string) (v : V).

Lemma get_setitem_same d k v : get (setitem d k v) k = Some v.
Proof.
  induction d as [|[k' v'] d IH]; simpl.
  - now rewrite String.eqb_refl.
  - destruct (String.eqb k' k) eqn:E; simpl.
    + now rewrite String.eqb_refl.
    + now rewrite E.
Qed.

Lemma get_setitem_other d k k0 v :
  k0 <> k -> get (setitem d k0 v) k = get d k.
Proof.
  intros Hne. induction d as [|[k' v'] d IH]; simpl.
  - destruct (String.eqb_spec k0 k); [contradiction | reflexivity].
  - destruct (String.eqb_spec k' k0) as [->|Hk]; simpl.
    + destruct (String.eqb_spec k0 k); [contradiction | reflexivity].
    + now rewrite IH.
Qed.

Lemma setitem_get d k v : get d k = Some v -> setitem d k v = d.
Proof.
  induction d as [|[k' v'] d IH]; simpl; [discriminate|].
  destruct (String.eqb_spec k' k) as [->|Hk]; intros H.
  - now inversion H.
  - now rewrite IH.
Qed.

Lemma contains_keys d k : contains d k = true <-> In k (keys d).
Proof.
  unfold contains, keys. induction d as [|[k' v'] d IH]; simpl.
  - split; [discriminate | tauto].
  - destruct (String.eqb_spec k' k) as [->|Hk].
    + split; auto.
    + rewrite IH. split; [auto | intros [H|H]; [contradiction | exact H]].
Qed.

Lemma contains_false_keys d k : contains d k = false <-> ~ In k (keys d).
Proof.
  rewrite <- contains_keys. destruct (contains d k); split; congruence.
Qed.

Lemma keys_setitem d k0 v k :
  In k (keys (setitem d k0 v)) <-> k = k0 \/ In k (keys d).
Proof.
  unfold keys. induction d as [|[k' v'] d IH]; simpl.
  - intuition.
  - destruct (String.eqb_spec k' k0) as [->|Hk]; simpl.
    + intuition.
    + rewrite IH. intuition.
Qed.

Lemma keys_pop d k0 k : In k (keys (pop d k0)) <-> k <> k0 /\ In k (keys d).
Proof.
  unfold keys. induction d as [|[k' v'] d IH]; simpl.
  - tauto.
  - destruct (String.eqb_spec k' k0) as [->|Hk]; simpl.
    + rewrite IH. intuition congruence.
    + rewrite IH. intuition congruence.
Qed.

Lemma wf_setitem d k v : wf d -> wf (setitem d k v).
Proof.
  unfold wf. induction d as [|[k' v'] d IH]; simpl; intros H.
  - constructor; [intros [] | constructor].
  - inversion H as [|? ? Hnin Hnd]; subst.
    destruct (String.eqb_spec k' k) as [->|Hk]; simpl.
    + now constructor.
    + constructor; [|now apply IH].
      intros Hin. apply keys_setitem in Hin. destruct Hin as [->|Hin]; auto.
Qed.

Lemma wf_pop d k : wf d -> wf (pop d k).
Proof.
  unfold wf. induction d as [|[k' v'] d IH]; simpl; intros H; [constructor|].
  inversion H as [|? ? Hnin Hnd]; subst.
  destruct (String.eqb_spec k' k) as [->|Hk]; simpl; [now apply IH|].
  constructor; [|now apply IH].
  intros Hin. apply keys_pop in Hin. tauto.
Qed.

Lemma len_keys d : len d = List.length (keys d).
Proof. unfold len, keys. now rewrite length_map. Qed.

Lemma get_In d k v : get d k = Some v -> In (k, v) d.
Proof.
  induction d as [|[k' v'] d IH]; simpl; [discriminate|].
  destruct (String.eqb_spec k' k) as [->|Hk]; intros H.
  - inversion H. now left.
  - right. now apply IH.
Qed.

End Facts.

End PyDictFacts.

Import PyDictFacts.

(** ** Facts on the order of floats *)

Module FloatOrder.

Lemma SFleb_refl_l (a b : spec_float) : SFleb a b = true -> SFleb a a = true.
Proof.
  unfold SFleb. destruct a as [s| s| |s m e]; simpl; try discriminate; auto.
  - destruct s; reflexivity.
  - intros _. rewrite Z.compare_refl, Pos.compare_cont_refl.
    destruct s; reflexivity.
Qed.

Lemma SFleb_refl_r (a b : spec_float) : SFleb a b = true -> SFleb b b = true.
Proof.
  unfold SFleb. destruct b as [s| s| |s m e]; simpl; auto.
  - destruct s; reflexivity.
  - destruct a; simpl; discriminate.
  - intros _. rewrite Z.compare_refl, Pos.compare_cont_refl.
    destruct s; reflexivity.
Qed.

Lemma SFltb_not_leb (a b : spec_float) : SFltb a b = true -> SFleb b a = false.
Proof.
  unfold SFltb, SFleb.
  destruct a as [sa| sa| |sa ma ea], b as [sb| sb| |sb mb eb]; simpl;
    try discriminate; try (destruct sa; try destruct sb; simpl; congruence);
    try (destruct sb; simpl; congruence).
  destruct sa, sb; simpl; try congruence.
  all: rewrite (Z.compare_antisym ea eb); destruct (ea ?= eb)%Z; simpl;
    try congruence;
    change Eq with (CompOpp Eq) at 2;
    rewrite <- (Pos.compare_cont_antisym ma mb Eq);
    destruct (Pos.compare_cont Eq ma mb); simpl; congruence.
Qed.

(** A float that is below or equal to another is not a NaN: it is below or
    equal to itself; and so is the other. *)
Lemma leb_refl_l (x y : float) :
  PrimFloat.leb x y = true -> PrimFloat.leb x x = true.
Proof. rewrite !leb_spec. apply SFleb_refl_l. Qed.

Lemma leb_refl_r (x y : float) :
  PrimFloat.leb x y = true -> PrimFloat.leb y y = true.
Proof. rewrite !leb_spec. apply SFleb_refl_r. Qed.

(** Strictly below excludes above or equal. *)
Lemma ltb_not_leb (x y : float) :
  PrimFloat.ltb x y = true -> PrimFloat.leb y x = false.
Proof. rewrite ltb_spec, leb_spec. apply SFltb_not_leb. Qed.

End FloatOrder.

(** ** Facts on the handler *)

Section HandlerFacts.

Variable int_of_str : string -> option Z.
Variable float_of_str : string -> option float.
Variable e : env.
Variable room_id : string.
Variable username : string.
Variable ws : websocket.

Local Abbreviation py_int := (py_int int_of_str).
Local Abbreviation py_float := (py_float float_of_str).
Local Abbreviation floats_of := (floats_of float_of_str).
Local Abbreviation count_valid := (count_valid float_of_str).
Local Abbreviation store_result := (store_result int_of_str float_of_str e username).
Local Abbreviation on_result := (on_result int_of_str float_of_str e username ws).
Local Abbreviation ws_room_message :=
  (ws_room_message int_of_str float_of_str e room_id username ws).

(** The loop of lines 105-108 adds to the count the number of timestamps
    in the window, and raises where the first conversion does. *)
Lemma count_valid_floats_of start end_ off ts valid :
  count_valid start end_ off ts valid =
  match floats_of ts with
  | Raise x => Raise x
  | Ret fs => Ret (valid + spec_validated_count start end_ off fs)
  end.
Proof.
  revert valid. induction ts as [|v ts IH]; intros valid; simpl.
  - unfold spec_validated_count. simpl. f_equal. lia.
  - destruct (py_float v) as [t|x]; [|reflexivity].
    rewrite IH. destruct (floats_of ts) as [fs|x]; [|reflexivity].
    unfold spec_validated_count. simpl.
    unfold in_window at 2, float_ge, float_le.
    destruct (PrimFloat.leb start (PrimFloat.add t off)
              && PrimFloat.leb (PrimFloat.add t off) end_); simpl;
      f_equal; lia.
Qed.

Lemma spec_validated_count_bounds start end_ off fs :
  0 <= spec_validated_count start end_ off fs <= Z.of_nat (List.length fs).
Proof.
  unfold spec_validated_count. split; [lia|].
  apply inj_le, filter_length_le.
Qed.

Lemma floats_of_length ts fs :
  floats_of ts = Ret fs -> List.length fs = List.length ts.
Proof.
  revert fs. induction ts as [|v ts IH]; simpl; intros fs H.
  - inversion H. reflexivity.
  - destruct (py_float v); [|discriminate].
    destruct (floats_of ts) as [fs'|]; [|discriminate].
    inversion H. simpl. f_equal. now apply IH.
Qed.

(** [store_result], step by step: each conversion raises before
    anything is written or sent. *)
Lemma store_result_unfold msg start r :
  store_result msg start r =
  match py_int (get_default msg "count" (JInt 0)) with
  | Raise x => (Raise x, r, [])
  | Ret c =>
      match py_float (get_default msg "offset" (JFloat 0%float)) with
      | Raise x => (Raise x, r, [])
      | Ret off =>
          match py_iter (get_default msg "timestamps" (JList [])) with
          | Raise x => (Raise x, r, [])
          | Ret ts =>
              match count_valid start (window_end r start) off ts 0 with
              | Raise x => (Raise x, r, [])
              | Ret valid =>
                  (Ret tt, stored username r c valid off,
                   broadcast_room e (stored username r c valid off)
                     (PartialResult username valid))
              end
          end
      end
  end.
Proof.
  unfold store_result, bind, lift, read, modify, broadcast_here.
  destruct (py_int _) as [c|x]; [|reflexivity].
  destruct (py_float _) as [off|x]; [|reflexivity].
  destruct (py_iter _) as [ts|x]; [|reflexivity].
  destruct (count_valid _ _ _ _ _) as [valid|x]; reflexivity.
Qed.

(** [on_result] in a round that is active. *)
Lemma on_result_active msg start r :
  start_time r = Some start ->
  on_result msg r =
  match store_result msg start r with
  | (Ret _, r1, o1) =>
      if Nat.eqb (len (results r1)) (len (clients r1))
      then (Ret tt, fst (finalize_room e r1), o1 ++ snd (finalize_room e r1))
      else (Ret tt, r1, o1 ++ [])
  | (Raise x, r1, o1) => (Raise x, r1, o1)
  end.
Proof.
  intros Hs. unfold on_result, bind, read, ret, finalize_here.
  cbv beta iota. rewrite Hs.
  destruct (store_result msg start r) as [[[u|x] r1] o1]; [|reflexivity].
  destruct (Nat.eqb _ _); [|reflexivity].
  destruct (finalize_room e r1) as [r2 o2]. reflexivity.
Qed.

(** A message that is a dict with a type. *)
Lemma ws_room_message_result msg r :
  get_default msg "type" JNull = JStr "result" ->
  ws_room_message (Json (JDict msg)) r = on_result msg r.
Proof.
  intros Ht. unfold ws_room_message, bind, lift.
  cbn -[on_result]. rewrite Ht. cbn -[on_result].
  destruct (on_result msg r) as [[o r'] out]. reflexivity.
Qed.

Lemma ws_room_message_request_start msg r :
  get_default msg "type" JNull = JStr "request_start" ->
  ws_room_message (Json (JDict msg)) r = on_request_start e room_id r.
Proof.
  intros Ht. unfold ws_room_message, bind, lift.
  cbn -[on_request_start]. rewrite Ht. cbn -[on_request_start].
  destruct (on_request_start e room_id r) as [[o r'] out]. reflexivity.
Qed.

End HandlerFacts.

(** ** Result submission and round start *)

Section Submission.

Variable int_of_str : string -> option Z.
Variable float_of_str : string -> option float.
Variable e : env.
Variable room_id : string.
Variable username : string.
Variable ws : websocket.

Local Abbreviation py_int := (py_int int_of_str).
Local Abbreviation py_float := (py_float float_of_str).
Local Abbreviation floats_of := (floats_of float_of_str).
Local Abbreviation store_result :=
  (store_result int_of_str float_of_str e username).
Local Abbreviation ws_room_message :=
  (ws_room_message int_of_str float_of_str e room_id username ws).

Lemma created_tasks_broadcast r m : created_tasks (broadcast_room e r m) = [].
Proof.
  unfold broadcast_room.
  induction (filter (connected e) (values (clients r))); simpl; auto.
Qed.

(** What an accepted submission was made of. *)
Lemma store_result_accepted msg start r r' out :
  store_result msg start r = (Ret tt, r', out) ->
  exists c off ts fs,
    py_int (get_default msg "count" (JInt 0)) = Ret c
    /\ py_float (get_default msg "offset" (JFloat 0%float)) = Ret off
    /\ py_iter (get_default msg "timestamps" (JList [])) = Ret ts
    /\ floats_of ts = Ret fs
    /\ r' = stored username r c
              (spec_validated_count start (window_end r start) off fs) off.
Proof.
  rewrite store_result_unfold.
  destruct (py_int _) as [c|x] eqn:Hc; [|discriminate].
  destruct (py_float _) as [off|x] eqn:Ho; [|discriminate].
  destruct (py_iter _) as [ts|x] eqn:Hi; [|discriminate].
  rewrite count_valid_floats_of.
  destruct (floats_of ts) as [fs|x] eqn:Hf; [|discriminate].
  intros H. inversion H. exists c, off, ts, fs. repeat split; auto.
Qed.

(** C2. For a submission in an active round whose window is
    [start, end = start + duration]: once the count, the offset and the
    timestamps are read, the entry stored for the user holds as validated
    count the number of timestamps [t] with [start <= t + offset <= end],
    and that number is what the partial result announces. Both bounds are
    inclusive: a timestamp with [t + offset] equal to [start] or to [end]
    is in the window, and one with [t + offset] strictly below [start] or
    strictly above [end] is not. *)
Theorem validated_count_is_window_count msg start r c off ts fs :
  py_int (get_default msg "count" (JInt 0)) = Ret c ->
  py_float (get_default msg "offset" (JFloat 0%float)) = Ret off ->
  py_iter (get_default msg "timestamps" (JList [])) = Ret ts ->
  floats_of ts = Ret fs ->
  let end_ := window_end r start in
  let n := spec_validated_count start end_ off fs in
  store_result msg start r =
    (Ret tt, stored username r c n off,
     broadcast_room e (stored username r c n off) (PartialResult username n))
  /\ get (results (stored username r c n off)) username
     = Some (mkResult c n off)
  /\ (forall t, PrimFloat.add t off = start ->
        PrimFloat.leb start end_ = true ->
        in_window start end_ off t = true)
  /\ (forall t, PrimFloat.add t off = end_ ->
        PrimFloat.leb start end_ = true ->
        in_window start end_ off t = true)
  /\ (forall t, PrimFloat.ltb (PrimFloat.add t off) start = true
                \/ PrimFloat.ltb end_ (PrimFloat.add t off) = true ->
        in_window start end_ off t = false).
Proof.
  intros Hc Ho Hi Hf end_ n. repeat split.
  - rewrite store_result_unfold, Hc, Ho, Hi, count_valid_floats_of, Hf.
    reflexivity.
  - unfold stored. simpl. apply get_setitem_same.
  - intros t Ht Hle. unfold in_window. rewrite Ht, Hle.
    now rewrite (FloatOrder.leb_refl_l _ _ Hle).
  - intros t Ht Hle. unfold in_window. rewrite Ht, Hle.
    now rewrite (FloatOrder.leb_refl_r _ _ Hle).
  - intros t [H|H]; unfold in_window;
      rewrite (FloatOrder.ltb_not_leb _ _ H); auto using andb_false_r.
Qed.

(** C9. The validated count of an accepted submission lies between 0 and
    the number of timestamps submitted, and the count the client reports
    has no part in it: the same submission with any other count, if
    accepted, stores the same validated count. *)
Theorem validated_count_bounded msg start r r' out :
  store_result msg start r = (Ret tt, r', out) ->
  exists c off ts n,
    py_iter (get_default msg "timestamps" (JList [])) = Ret ts
    /\ get (results r') username = Some (mkResult c n off)
    /\ 0 <= n <= Z.of_nat (List.length ts)
    /\ forall count' r2 out2,
         store_result (setitem msg "count" count') start r = (Ret tt, r2, out2) ->
         exists c', get (results r2) username = Some (mkResult c' n off).
Proof.
  intros H. apply store_result_accepted in H.
  destruct H as (c & off & ts & fs & Hc & Ho & Hi & Hf & ->).
  exists c, off, ts, (spec_validated_count start (window_end r start) off fs).
  split; [exact Hi|]. split; [apply get_setitem_same|]. split.
  - rewrite <- (floats_of_length _ _ _ Hf). apply spec_validated_count_bounds.
  - intros count' r2 out2 H2. apply store_result_accepted in H2.
    destruct H2 as (c' & off' & ts' & fs' & _ & Ho' & Hi' & Hf' & ->).
    unfold get_default in Ho', Hi'.
    rewrite get_setitem_other in Ho', Hi' by discriminate.
    fold (get_default msg "offset" (JFloat 0%float)) in Ho'.
    fold (get_default msg "timestamps" (JList [])) in Hi'.
    assert (off' = off) by congruence. assert (ts' = ts) by congruence. subst.
    assert (fs' = fs) by congruence. subst.
    exists c'. apply get_setitem_same.
Qed.

(** A submission is read through its three fields only. *)
Lemma store_result_fields msg msg' start r :
  get_default msg "count" (JInt 0) = get_default msg' "count" (JInt 0) ->
  get_default msg "offset" (JFloat 0%float)
  = get_default msg' "offset" (JFloat 0%float) ->
  get_default msg "timestamps" (JList [])
  = get_default msg' "timestamps" (JList []) ->
  store_result msg start r = store_result msg' start r.
Proof.
  intros H1 H2 H3. rewrite !store_result_unfold, H1, H2, H3. reflexivity.
Qed.

Lemma get_default_setitem (msg : dict json) k v k' d :
  get_default (setitem msg k v) k' d
  = if String.eqb k k' then v else get_default msg k' d.
Proof.
  unfold get_default. destruct (String.eqb_spec k k') as [->|Hne].
  - now rewrite get_setitem_same.
  - now rewrite get_setitem_other.
Qed.

(** C10. A result with fields missing is accepted in an active round. A
    missing [count] is read as 0, a missing [offset] as 0.0, missing
    [timestamps] as the empty list: the submission is handled as the same
    message with that value written in. With the three of them missing the
    entry stored is [(0, 0, 0.0)], and the submission counts for the early
    end of the round, which runs as soon as results and clients are as
    many. *)
Theorem missing_fields_default msg start r :
  get_default msg "type" JNull = JStr "result" ->
  start_time r = Some start ->
  (get msg "count" = None ->
   store_result msg start r
   = store_result (setitem msg "count" (JInt 0)) start r)
  /\ (get msg "offset" = None ->
      store_result msg start r
      = store_result (setitem msg "offset" (JFloat 0%float)) start r)
  /\ (get msg "timestamps" = None ->
      store_result msg start r
      = store_result (setitem msg "timestamps" (JList [])) start r)
  /\ (get msg "count" = None ->
      get msg "offset" = None ->
      get msg "timestamps" = None ->
      let r1 := stored username r 0 0 0%float in
      let o1 := broadcast_room e r1 (PartialResult username 0) in
      store_result msg start r = (Ret tt, r1, o1)
      /\ get (results r1) username = Some (mkResult 0 0 0%float)
      /\ ws_room_message (Json (JDict msg)) r =
         if Nat.eqb (len (results r1)) (len (clients r1))
         then (Ret tt, fst (finalize_room e r1),
               o1 ++ snd (finalize_room e r1))
         else (Ret tt, r1, o1)).
Proof.
  intros Ht Hs.
  split; [|split; [|split]].
  - intros H. apply store_result_fields; rewrite get_default_setitem; simpl;
      try reflexivity. unfold get_default. now rewrite H.
  - intros H. apply store_result_fields; rewrite get_default_setitem; simpl;
      try reflexivity. unfold get_default. now rewrite H.
  - intros H. apply store_result_fields; rewrite get_default_setitem; simpl;
      try reflexivity. unfold get_default. now rewrite H.
  - intros Hc Ho Hts r1 o1.
    assert (Hst : store_result msg start r = (Ret tt, r1, o1)).
    { rewrite store_result_unfold. unfold get_default. rewrite Hc, Ho, Hts.
      reflexivity. }
    split; [exact Hst|]. split; [apply get_setitem_same|].
    rewrite (ws_room_message_result _ _ _ _ _ _ _ _ Ht).
    rewrite (on_result_active _ _ _ _ _ _ _ _ Hs), Hst.
    now rewrite app_nil_r.
Qed.

(** C7. A result sent while no round is active ([start_time] is [None])
    gets one error message, sent to the socket it came from and to no other,
    and nothing else happens: the room is as it was. *)
Theorem result_without_round_is_refused msg r :
  get_default msg "type" JNull = JStr "result" ->
  start_time r = None ->
  ws_room_message (Json (JDict msg)) r =
    (Ret tt, r, [SendText ws (Error "no active round")]).
Proof.
  intros Ht Hs. rewrite (ws_room_message_result _ _ _ _ _ _ _ _ Ht).
  unfold on_result, bind, read, send_text, emit. cbv beta iota.
  rewrite Hs. reflexivity.
Qed.

(** C5. A [request_start], whatever the room was doing: the start time is
    the clock plus 5.0, the results are emptied, clients, duration and last
    ranking stay; the start message with that start time and the duration
    goes to the connected clients; exactly one task is created, to finalize
    the room at start + duration + 2.0; and the window of the round ends at
    start + duration. A round that was active is overwritten: nothing of the
    former start time or results is in the new room. *)
Theorem request_start_schedules_round msg r :
  get_default msg "type" JNull = JStr "request_start" ->
  let start := PrimFloat.add (now e) 5%float in
  let r' := mkRoom (clients r) [] (Some start) (duration r) (last_ranking r) in
  let out := snd (ws_room_message (Json (JDict msg)) r) in
  ws_room_message (Json (JDict msg)) r = (Ret tt, r', out)
  /\ out = broadcast_room e r' (Start start (duration r))
           ++ [CreateTask room_id
                 (PrimFloat.add
                    (PrimFloat.add start (float_of_Z (duration r))) 2%float)]
  /\ created_tasks out =
       [(room_id,
         PrimFloat.add (PrimFloat.add start (float_of_Z (duration r))) 2%float)]
  /\ window_end r' start = PrimFloat.add start (float_of_Z (duration r)).
Proof.
  intros Ht start r' out. subst out.
  rewrite (ws_room_message_request_start _ _ _ _ _ _ _ _ Ht).
  unfold on_request_start, bind, modify, read, broadcast_here, emit.
  cbn -[broadcast_room]. repeat split.
  unfold created_tasks. rewrite flat_map_app.
  fold (created_tasks (broadcast_room e r' (Start start (duration r)))).
  rewrite created_tasks_broadcast. reflexivity.
Qed.

End Submission.

(** ** The stable sort *)

Module SortFacts.

Section Sorted.

Context {A : Type}.
Variable key : A -> Z * Z.

Local Abbreviation not_after := (not_after key).

Lemma key_lt_trans k1 k2 k3 :
  key_lt k1 k2 = true -> key_lt k2 k3 = true -> key_lt k1 k3 = true.
Proof.
  unfold key_lt. destruct k1 as [a1 b1], k2 as [a2 b2], k3 as [a3 b3]. simpl.
  rewrite !orb_true_iff, !andb_true_iff, !Z.ltb_lt, !Z.eqb_eq. lia.
Qed.

Lemma key_lt_total k1 k2 :
  key_lt k1 k2 = false -> key_lt k2 k1 = false -> k1 = k2.
Proof.
  unfold key_lt. destruct k1 as [a1 b1], k2 as [a2 b2]. simpl.
  rewrite !orb_false_iff, !andb_false_iff, !Z.ltb_ge, !Z.eqb_neq.
  intros [H1 H2] [H3 H4]. f_equal; lia.
Qed.

Lemma not_after_trans a b c : not_after a b -> not_after b c -> not_after a c.
Proof.
  unfold not_after, key_lt.
  destruct (key a) as [a1 a2], (key b) as [b1 b2], (key c) as [c1 c2]. simpl.
  rewrite !orb_false_iff, !andb_false_iff, !Z.ltb_ge, !Z.eqb_neq. lia.
Qed.

Lemma key_lt_not_after a b : key_lt (key a) (key b) = true -> not_after a b.
Proof.
  unfold not_after, key_lt. destruct (key a) as [a1 a2], (key b) as [b1 b2].
  simpl. rewrite orb_true_iff, andb_true_iff, !Z.ltb_lt, Z.eqb_eq.
  rewrite orb_false_iff, andb_false_iff, !Z.ltb_ge, Z.eqb_neq. lia.
Qed.

Lemma insert_by_perm x l : Permutation (insert_by key x l) (x :: l).
Proof.
  induction l as [|y l IH]; simpl; [reflexivity|].
  destruct (key_lt (key y) (key x)); [|reflexivity].
  rewrite IH. apply perm_swap.
Qed.

Lemma sorted_perm l : Permutation (sorted key l) l.
Proof.
  induction l as [|x l IH]; simpl; [constructor|].
  rewrite insert_by_perm. now constructor.
Qed.

Lemma insert_by_sorted x l :
  StronglySorted not_after l -> StronglySorted not_after (insert_by key x l).
Proof.
  induction 1 as [|y l Hs IH Hall]; simpl.
  - constructor; constructor.
  - destruct (key_lt (key y) (key x)) eqn:E.
    + constructor; [exact IH|].
      apply (Permutation_Forall (Permutation_sym (insert_by_perm x l))).
      constructor; [now apply key_lt_not_after | exact Hall].
    + constructor; [now constructor|].
      constructor; [exact E|].
      apply Forall_impl with (2 := Hall). intros z. now apply not_after_trans.
Qed.

Lemma sorted_sorted l : StronglySorted not_after (sorted key l).
Proof.
  induction l as [|x l IH]; simpl; [constructor|]. now apply insert_by_sorted.
Qed.

(** Stability: elements none of whose keys is below another's keep their
    order. *)
Lemma insert_by_filter (p : A -> bool) x l :
  (forall a b, p a = true -> p b = true -> key_lt (key a) (key b) = false) ->
  filter p (insert_by key x l) = filter p (x :: l).
Proof.
  intros Hp. induction l as [|y l IH]; [reflexivity|].
  cbn [insert_by]. destruct (key_lt (key y) (key x)) eqn:E; [|reflexivity].
  cbn [filter] in *. rewrite IH.
  destruct (p x) eqn:Px; [|reflexivity].
  destruct (p y) eqn:Py; [|reflexivity].
  rewrite (Hp y x Py Px) in E. discriminate.
Qed.

Lemma sorted_filter (p : A -> bool) l :
  (forall a b, p a = true -> p b = true -> key_lt (key a) (key b) = false) ->
  filter p (sorted key l) = filter p l.
Proof.
  intros Hp. induction l as [|x l IH]; [reflexivity|].
  cbn [sorted fold_right]. fold (sorted key l).
  rewrite (insert_by_filter p x _ Hp). cbn [filter]. now rewrite IH.
Qed.

End Sorted.

Lemma StronglySorted_weaken {A : Type} (P Q : A -> A -> Prop) l :
  (forall a b, P a b -> Q a b) -> StronglySorted P l -> StronglySorted Q l.
Proof.
  intros HPQ. induction 1 as [|x l Hs IH Hall]; constructor; auto.
  apply Forall_impl with (2 := Hall). auto.
Qed.

Lemma not_after_rank a b : not_after rank_key a b <-> ranks_before a b.
Proof.
  unfold not_after, ranks_before, rank_key, key_lt. simpl.
  rewrite orb_false_iff, andb_false_iff, !Z.ltb_ge, Z.eqb_neq. lia.
Qed.

Lemma tied_keys v c a b :
  tied v c a = true -> tied v c b = true ->
  key_lt (rank_key a) (rank_key b) = false.
Proof.
  unfold tied, rank_key, key_lt. simpl.
  rewrite !andb_true_iff, !Z.eqb_eq. intros [-> ->] [-> ->].
  rewrite orb_false_iff, andb_false_iff, !Z.ltb_ge. lia.
Qed.

End SortFacts.

(** ** Finalization *)

Section Finalize.

Variable e : env.

Lemma broadcast_found rooms room_id r m :
  get rooms room_id = Some r ->
  broadcast e rooms room_id m = broadcast_room e r m.
Proof. intros H. unfold broadcast. now rewrite H. Qed.

(** The code run at connection is the join of the room found or made. *)
Lemma ws_room_accept_join rooms room_id username ws :
  ws_room_accept e rooms room_id username ws
  = (setitem rooms room_id
       (fst (ws_room_join e username ws (setdefault rooms room_id))),
     snd (ws_room_join e username ws (setdefault rooms room_id))).
Proof.
  unfold ws_room_accept, ws_room_join. simpl. f_equal.
  apply broadcast_found, get_setitem_same.
Qed.

Lemma synthesize_keeps res users u x :
  get res u = Some x -> get (synthesize res users) u = Some x.
Proof.
  unfold synthesize. revert res.
  induction users as [|w users IH]; intros res H; simpl; [exact H|].
  apply IH. destruct (contains res w) eqn:C; [exact H|].
  rewrite get_setitem_other; [exact H|].
  intros ->. unfold contains in C. now rewrite H in C.
Qed.

Lemma synthesize_adds res users u :
  In u users -> contains res u = false ->
  get (synthesize res users) u = Some zero_result.
Proof.
  unfold synthesize. revert res.
  induction users as [|w users IH]; intros res Hin Hc; simpl; [contradiction|].
  destruct (String.eqb_spec w u) as [->|Hne].
  - rewrite Hc. apply synthesize_keeps, get_setitem_same.
  - destruct Hin as [->|Hin]; [contradiction|].
    apply IH; [exact Hin|].
    destruct (contains res w); [exact Hc|].
    unfold contains in *. rewrite get_setitem_other by exact Hne. exact Hc.
Qed.

Lemma build_ranking_entries res : build_ranking res = sorted rank_key (entries_of res).
Proof. reflexivity. Qed.

Lemma get_in_ranking res u x :
  get res u = Some x ->
  In (mkRank u (validated x) (reported x)) (build_ranking res).
Proof.
  intros H. apply get_In in H.
  apply (Permutation_in _ (Permutation_sym (SortFacts.sorted_perm rank_key _))).
  apply (in_map (fun ur => mkRank (fst ur) (validated (snd ur))
                             (reported (snd ur))) _ _ H).
Qed.

(** C8. When [finalize_round] finds the room: every client without an
    entry in [results] is given the entry [(0, 0, 0.0)] and is in the
    ranking with 0 validated and 0 reported; every client is in the
    ranking; the ranking is what is broadcast as [round_end] and kept as
    last ranking; and the room is left with no start time and no results,
    its clients and duration as they were. *)
Theorem finalize_synthesizes_and_resets rooms room_id r :
  get rooms room_id = Some r ->
  let res := synthesize (results r) (keys (clients r)) in
  let ranking := build_ranking res in
  let r' := mkRoom (clients r) [] None (duration r) (Some ranking) in
  finalize_round e rooms room_id =
    (setitem rooms room_id r',
     map (fun w => SendText w (RoundEnd ranking))
         (filter (connected e) (values (clients r))))
  /\ get (fst (finalize_round e rooms room_id)) room_id = Some r'
  /\ (forall u, In u (keys (clients r)) -> contains (results r) u = false ->
        get res u = Some (mkResult 0 0 0%float)
        /\ In (mkRank u 0 0) ranking)
  /\ (forall u, In u (keys (clients r)) ->
        exists v c, In (mkRank u v c) ranking).
Proof.
  intros Hr res ranking r'.
  assert (Hf : finalize_round e rooms room_id =
               (setitem rooms room_id r',
                map (fun w => SendText w (RoundEnd ranking))
                  (filter (connected e) (values (clients r))))).
  { unfold finalize_round. rewrite Hr. reflexivity. }
  split; [exact Hf|]. split; [rewrite Hf; apply get_setitem_same|].
  assert (Hnew : forall u, In u (keys (clients r)) ->
                 contains (results r) u = false ->
                 get res u = Some zero_result).
  { intros u Hin Hc. now apply synthesize_adds. }
  split.
  - intros u Hin Hc. split; [now apply Hnew|].
    apply (get_in_ranking res u zero_result). now apply Hnew.
  - intros u Hin. destruct (contains (results r) u) eqn:C.
    + unfold contains in C. destruct (get (results r) u) as [x|] eqn:G;
        [|discriminate].
      exists (validated x), (reported x).
      apply get_in_ranking. now apply synthesize_keeps.
    + exists 0, 0. apply (get_in_ranking res u zero_result). now apply Hnew.
Qed.

(** C6. The ranking of a finalization is the entries of the results
    (those submitted, then those made for the silent clients) put in order:
    more validated taps first and, among equals, more reported taps first.
    It has exactly those entries; entries equal on both counts keep the
    order they had in the results, which is the order of insertion; and it
    is a function of the results and of the names of the clients alone, so
    that two finalizations from the same results and clients give the same
    ranking. *)
Theorem ranking_sorted_stable r :
  let res := synthesize (results r) (keys (clients r)) in
  let ranking := build_ranking res in
  last_ranking (fst (finalize_room e r)) = Some ranking
  /\ snd (finalize_room e r) =
     map (fun w => SendText w (RoundEnd ranking))
         (filter (connected e) (values (clients r)))
  /\ Permutation ranking (entries_of res)
  /\ StronglySorted ranks_before ranking
  /\ (forall v c, filter (tied v c) ranking = filter (tied v c) (entries_of res))
  /\ (forall e2 r2, results r2 = results r ->
        keys (clients r2) = keys (clients r) ->
        last_ranking (fst (finalize_room e2 r2)) = Some ranking).
Proof.
  intros res ranking. split; [reflexivity|]. split; [reflexivity|].
  split; [apply SortFacts.sorted_perm|]. split.
  - apply SortFacts.StronglySorted_weaken
      with (P := not_after rank_key).
    + intros a b. apply SortFacts.not_after_rank.
    + apply SortFacts.sorted_sorted.
  - split.
    + intros v c. apply SortFacts.sorted_filter. apply SortFacts.tied_keys.
    + intros e2 r2 H1 H2. unfold finalize_room. simpl.
      unfold ranking, res. now rewrite H1, H2.
Qed.

End Finalize.

(** ** What one message can do to the room *)

Section MessageEffects.

Variable int_of_str : string -> option Z.
Variable float_of_str : string -> option float.
Variable e : env.
Variable room_id : string.
Variable username : string.
Variable ws : websocket.

Local Abbreviation store_result :=
  (store_result int_of_str float_of_str e username).
Local Abbreviation on_result := (on_result int_of_str float_of_str e username ws).
Local Abbreviation ws_room_message :=
  (ws_room_message int_of_str float_of_str e room_id username ws).
Local Abbreviation message_effect := (message_effect username).

Lemma store_result_effect msg start r :
  let '(o, r', out) := store_result msg start r in
  match o with
  | Raise _ => r' = r /\ out = []
  | Ret _ => clients r' = clients r
             /\ exists x, results r' = setitem (results r) username x
  end.
Proof.
  rewrite store_result_unfold.
  destruct (py_int _ _); [|now split].
  destruct (py_float _ _); [|now split].
  destruct (py_iter _); [|now split].
  destruct (count_valid _ _ _ _ _ _); [|now split].
  split; [reflexivity|]. eexists. reflexivity.
Qed.

Lemma on_result_effect msg r :
  is_str (get_default msg "type" JNull) "result" = true ->
  message_effect (Json (JDict msg)) r (on_result msg r).
Proof.
  intros Ht. destruct (start_time r) as [start|] eqn:Hs.
  - rewrite (on_result_active _ _ _ _ _ _ _ _ Hs).
    pose proof (store_result_effect msg start r) as H.
    destruct (store_result msg start r) as [[[u|x] r1] o1].
    + destruct H as [Hc [x Hx]].
      destruct (Nat.eqb _ _).
      * split; [exact Hc|]. right. left. reflexivity.
      * split; [exact Hc|]. right. right. split; [exact Ht|]. now exists x.
    + destruct H as [-> ->]. split; [reflexivity|]. now split.
  - unfold on_result, bind, read, send_text, emit. cbv beta iota.
    rewrite Hs. split; [reflexivity|]. now left.
Qed.

Lemma ws_room_message_effect raw r : message_effect raw r (ws_room_message raw r).
Proof.
  destruct raw as [|v]; [now repeat split|].
  destruct v as [| | | | | |msg]; try now repeat split.
  unfold ws_room_message, bind, lift.
  cbn -[on_result on_request_start is_str message_effect].
  destruct (is_str _ "timesync"); [split; [reflexivity | now left]|].
  destruct (is_str _ "join"); [split; [reflexivity | now left]|].
  destruct (is_str _ "request_start").
  { split; [reflexivity|]. right. left. reflexivity. }
  destruct (is_str _ "result") eqn:Ht; [|split; [reflexivity | now left]].
  pose proof (on_result_effect msg r Ht) as H.
  destruct (on_result msg r) as [[o r'] out]. exact H.
Qed.

Lemma is_str_eq v t : is_str v t = true -> v = JStr t.
Proof.
  destruct v; simpl; try discriminate. intros H. apply String.eqb_eq in H.
  now subst.
Qed.

(** In an active round, a result raises exactly when its fields cannot be
    read. *)
Lemma store_result_raises msg start r :
  (exists x, fst (fst (store_result msg start r)) = Raise x)
  <-> unreadable int_of_str float_of_str msg.
Proof.
  rewrite store_result_unfold. unfold unreadable.
  destruct (py_int _ _) as [c|x1];
    [|simpl; split; [intros _; left; eauto | intros _; eauto]].
  destruct (py_float _ _) as [off|x2];
    [|simpl; split; [intros _; right; left; eauto | intros _; eauto]].
  destruct (py_iter _) as [ts|x3];
    [|simpl; split; [intros _; right; right; left; eauto | intros _; eauto]].
  rewrite count_valid_floats_of.
  destruct (floats_of float_of_str ts) as [fs|x4] eqn:Hf; simpl.
  - split.
    + intros [x Hx]. discriminate.
    + intros [[x H]|[[x H]|[[x H]|(ts' & x & H1 & H2)]]]; try discriminate.
      inversion H1; subst. congruence.
  - split; [|eauto]. intros _. right. right. right. eauto.
Qed.

(** The malformed messages are those on which the handler raises; on any
    other message the loop goes on. *)
Lemma malformed_iff_raises raw r :
  malformed int_of_str float_of_str raw r
  <-> exists x, fst (fst (ws_room_message raw r)) = Raise x.
Proof.
  destruct raw as [|v]; [simpl; split; eauto|].
  destruct v as [| | | | | |msg]; try solve [simpl; split; eauto].
  unfold malformed.
  destruct (is_str (get_default msg "type" JNull) "result") eqn:Ht.
  - rewrite (ws_room_message_result _ _ _ _ _ _ _ _ (is_str_eq _ _ Ht)).
    destruct (start_time r) as [start|] eqn:Hs.
    + rewrite (on_result_active _ _ _ _ _ _ _ _ Hs).
      pose proof (store_result_raises msg start r) as Hsr.
      destruct (store_result msg start r) as [[[u|x] r1] o1]; simpl in *.
      * split.
        -- intros (_ & _ & Hu). apply Hsr in Hu. destruct Hu as [y Hy].
           discriminate.
        -- destruct (Nat.eqb _ _); intros [y Hy]; discriminate.
      * split; [intros _; now exists x|].
        intros _. split; [reflexivity|]. split; [discriminate|].
        apply Hsr. now exists x.
    + unfold on_result, bind, read, send_text, emit. cbv beta iota.
      rewrite Hs. simpl. split; [intros (_ & H & _); now elim H|].
      intros [x Hx]. discriminate.
  - split; [intros [H _]; discriminate|].
    unfold ws_room_message, bind, lift.
    cbn -[on_result on_request_start is_str].
    rewrite Ht.
    destruct (is_str _ "timesync"); [intros [x Hx]; discriminate|].
    destruct (is_str _ "join"); [intros [x Hx]; discriminate|].
    destruct (is_str _ "request_start"); intros [x Hx]; discriminate.
Qed.

End MessageEffects.

(** ** Malformed messages *)

Section Malformed.

Variable int_of_str : string -> option Z.
Variable float_of_str : string -> option float.

(** C3, as the code has it. A malformed message (a text that is not JSON,
    a JSON value that is not an object, a result in an active round whose
    count, offset or timestamps cannot be read) is not set aside: the
    handler raises, the exception leaves the loop, and the handler of that
    connection is over. Nothing is sent, no task is created and the rooms
    are exactly as they were: the client is still in [clients], and no
    result is touched. *)
Theorem malformed_message_ends_handler e s room_id username ws raw r s' out :
  get (rooms s) room_id = Some r ->
  malformed int_of_str float_of_str raw r ->
  step int_of_str float_of_str e s (Receive room_id username ws raw)
    = Some (s', out) ->
  (exists x, ws_room_message int_of_str float_of_str e room_id username ws
               raw r = (Raise x, r, []))
  /\ rooms s' = rooms s
  /\ tasks s' = tasks s
  /\ out = []
  /\ handlers s'
     = remove_first handler_eqb (room_id, username, ws) (handlers s).
Proof.
  intros Hr Hm. unfold step. rewrite Hr.
  destruct (existsb _ _); [|discriminate].
  apply (malformed_iff_raises int_of_str float_of_str e room_id username ws)
    in Hm.
  destruct Hm as [x Hx].
  pose proof (ws_room_message_effect int_of_str float_of_str e room_id
                username ws raw r) as H.
  destruct (ws_room_message _ _ _ _ _ _ raw r) as [[o r'] out'].
  simpl in Hx. subst o. destruct H as [_ [-> ->]].
  intros H. inversion H; subst. simpl.
  rewrite (setitem_get _ _ _ Hr), app_nil_r. repeat split. now exists x.
Qed.

End Malformed.

(** ** Results and members *)

Section Membership.

Variable int_of_str : string -> option Z.
Variable float_of_str : string -> option float.

Lemma new_room_within_members : results_within_members new_room.
Proof. repeat split; try constructor. intros k []. Qed.

Lemma within_members_step e room_id op r :
  results_within_members r ->
  sender_is_member op r ->
  results_within_members (apply int_of_str float_of_str e room_id op r).
Proof.
  intros (Hwc & Hwr & Hincl) Hs.
  destruct op as [u w|u|u w raw]; simpl.
  - repeat split; [now apply wf_setitem | exact Hwr|].
    intros k Hk. apply keys_setitem. right. now apply Hincl.
  - repeat split; [now apply wf_pop | now apply wf_pop|].
    intros k Hk. apply keys_pop in Hk. apply keys_pop.
    split; [tauto|]. apply Hincl. tauto.
  - pose proof (ws_room_message_effect int_of_str float_of_str e room_id
                  u w raw r) as H.
    destruct (ws_room_message _ _ _ _ _ _ raw r) as [[o r1] out]. simpl.
    destruct H as [Hc H]. unfold results_within_members. rewrite Hc.
    destruct o as [[]|x].
    + destruct H as [->|[->|[Hres [x ->]]]].
      * now repeat split.
      * repeat split; [exact Hwc | constructor | intros k []].
      * repeat split; [exact Hwc | now apply wf_setitem|].
        intros k Hk. apply keys_setitem in Hk. destruct Hk as [->|Hk].
        -- now apply Hs.
        -- now apply Hincl.
    + destruct H as [-> _]. now repeat split.
Qed.

Lemma within_members_len r :
  results_within_members r -> (len (results r) <= len (clients r))%nat.
Proof.
  intros (_ & Hwr & Hincl). rewrite !len_keys. now apply NoDup_incl_length.
Qed.

(** C4, as the code has it. Every key of [results] is a key of [clients],
    and so the results are no more than the clients, after a join, after a
    leave, and after any message, provided that the sender of a result
    submission is in [clients] when it submits. *)
Theorem results_within_members_preserved e room_id op r :
  results_within_members r ->
  sender_is_member op r ->
  let r' := apply int_of_str float_of_str e room_id op r in
  results_within_members r'
  /\ (len (results r') <= len (clients r'))%nat.
Proof.
  intros Hinv Hs r'.
  assert (H : results_within_members r') by now apply within_members_step.
  split; [exact H | now apply within_members_len].
Qed.

End Membership.

(** ** Unique names keep results within members *)

Section UniqueNames.

Variable int_of_str : string -> option Z.
Variable float_of_str : string -> option float.

Lemma handler_eqb_eq a b : handler_eqb a b = true <-> a = b.
Proof.
  destruct a as [[ra ua] wa], b as [[rb ub] wb]. unfold handler_eqb.
  rewrite !andb_true_iff, !String.eqb_eq, Nat.eqb_eq.
  split; [intros [[-> ->] ->]; reflexivity | intros H; inversion H; auto].
Qed.

Lemma existsb_handler h l : existsb (handler_eqb h) l = true -> In h l.
Proof.
  intros H. apply existsb_exists in H. destruct H as (x & Hx & E).
  apply handler_eqb_eq in E. now subst.
Qed.

Lemma remove_first_In h h' l :
  In h' (remove_first handler_eqb h l) -> In h' l.
Proof.
  induction l as [|y l IH]; simpl; [tauto|].
  destruct (handler_eqb h y); simpl; intuition.
Qed.

Lemma remove_first_names h l :
  NoDup (map name_of l) -> NoDup (map name_of (remove_first handler_eqb h l)).
Proof.
  induction l as [|y l IH]; simpl; intros H; [constructor|].
  inversion H as [|? ? Hn Hd]; subst.
  destruct (handler_eqb h y); [exact Hd|]. simpl. constructor; [|now apply IH].
  intros Hin. apply Hn. apply in_map_iff in Hin. destruct Hin as (z & Hz & Hin).
  apply in_map_iff. exists z. split; [exact Hz|]. now apply remove_first_In in Hin.
Qed.

Lemma remove_first_other_name h h' l :
  NoDup (map name_of l) -> In h l ->
  In h' (remove_first handler_eqb h l) -> name_of h' <> name_of h.
Proof.
  induction l as [|y l IH]; simpl; intros Hnd Hin Hin'; [contradiction|].
  inversion Hnd as [|? ? Hn Hd]; subst.
  destruct (handler_eqb h y) eqn:E.
  - apply handler_eqb_eq in E. subst y. intros Heq. apply Hn.
    rewrite <- Heq. now apply in_map.
  - destruct Hin as [->|Hin].
    + assert (handler_eqb h h = true) by now apply handler_eqb_eq. congruence.
    + destruct Hin' as [->|Hin']; [|now apply IH].
      intros Heq. apply Hn. rewrite Heq. now apply in_map.
Qed.

Lemma rooms_update (P : room -> Prop) (rs : dict room) room_id r1 :
  (forall k r, get rs k = Some r -> P r) -> P r1 ->
  forall k r, get (setitem rs room_id r1) k = Some r -> P r.
Proof.
  intros Hall H1 k r. destruct (String.eqb_spec room_id k) as [->|Hne].
  - rewrite get_setitem_same. intros H. inversion H. now subst.
  - rewrite get_setitem_other by exact Hne. apply Hall.
Qed.

(** The handlers keep their place in the clients when the room of one name
    is replaced by a room with at least the same clients, but for the names
    in [gone]. *)
Lemma handlers_update (rs : dict room) room_id r r1 (hs hs' : list handler)
    (gone : string -> Prop) :
  get rs room_id = Some r ->
  (forall k, In k (keys (clients r)) -> ~ gone k -> In k (keys (clients r1))) ->
  (forall h, In h hs' -> In h hs /\ (fst (fst h) = room_id -> ~ gone (snd (fst h)))) ->
  (forall h, In h hs ->
     exists r0, get rs (fst (fst h)) = Some r0 /\ In (snd (fst h)) (keys (clients r0))) ->
  forall h, In h hs' ->
    exists r0, get (setitem rs room_id r1) (fst (fst h)) = Some r0
               /\ In (snd (fst h)) (keys (clients r0)).
Proof.
  intros Hr Hcl Hsub Hold h Hin. destruct (Hsub h Hin) as [Hin0 Hg].
  destruct (Hold h Hin0) as (r0 & Hr0 & Hk).
  destruct (String.eqb_spec room_id (fst (fst h))) as [E|Hne].
  - exists r1. rewrite <- E, get_setitem_same. split; [reflexivity|].
    rewrite <- E, Hr in Hr0. inversion Hr0; subst r0.
    apply Hcl; [exact Hk | now apply Hg].
  - exists r0. now rewrite get_setitem_other by exact Hne.
Qed.

Lemma step_inv e s ev s' out :
  server_inv s -> fresh_name s ev ->
  step int_of_str float_of_str e s ev = Some (s', out) ->
  server_inv s'.
Proof.
  intros (I1 & I2 & I3) Hfresh.
  destruct ev as [rid u w|rid u w raw|rid u w|rid when]; unfold step.
  - (* a connection *)
    destruct (existsb _ _); [discriminate|].
    unfold ws_room_accept. intros H. inversion H; subst; clear H.
    set (r0 := setdefault (rooms s) rid).
    set (r1 := set_clients r0 (setitem (clients r0) u w)).
    assert (H0 : results_within_members r0).
    { unfold r0, setdefault. destruct (get (rooms s) rid) eqn:G.
      - now apply (I1 rid).
      - apply new_room_within_members. }
    split; [|split]; simpl.
    + intros k r.
      apply (rooms_update results_within_members (rooms s) rid r1 I1).
      apply (within_members_step int_of_str float_of_str e rid (Join u w) r0 H0 I).
    + intros h Hin. apply in_app_or in Hin. destruct Hin as [Hin|[<-|[]]].
      * destruct (I2 h Hin) as (r & Hr & Hk).
        destruct (String.eqb_spec rid (fst (fst h))) as [E|Hne].
        -- exists r1. rewrite <- E, get_setitem_same. split; [reflexivity|].
           unfold r1. simpl. apply keys_setitem. right.
           unfold r0, setdefault. rewrite E, Hr. exact Hk.
        -- exists r. now rewrite get_setitem_other by exact Hne.
      * exists r1. simpl. rewrite get_setitem_same. split; [reflexivity|].
        unfold r1. simpl. apply keys_setitem. now left.
    + rewrite map_app. simpl.
      apply (Permutation_NoDup (Permutation_cons_append _ _)).
      constructor; [exact Hfresh | exact I3].
  - (* a message *)
    destruct (existsb _ _) eqn:Ex; [|discriminate]. apply existsb_handler in Ex.
    destruct (get (rooms s) rid) as [r|] eqn:Hr; [|discriminate].
    pose proof (ws_room_message_effect int_of_str float_of_str e rid u w raw r)
      as Heff.
    assert (Hstep : results_within_members
                      (apply int_of_str float_of_str e rid (Message u w raw) r)).
    { apply within_members_step; [now apply (I1 rid)|].
      simpl. intros _. destruct (I2 _ Ex) as (r0 & Hr0 & Hk). simpl in Hr0, Hk.
      congruence. }
    simpl in Hstep.
    destruct (ws_room_message _ _ _ _ _ _ raw r) as [[o r'] out'].
    simpl in Hstep. destruct Heff as [Hc _].
    intros H. inversion H; subst; clear H.
    split; [|split]; simpl.
    + intros k r2.
      now apply (rooms_update results_within_members (rooms s) rid r' I1).
    + apply (handlers_update (rooms s) rid r r' (handlers s) _ (fun _ => False) Hr).
      * intros k Hk _. now rewrite Hc.
      * intros h Hin. split; [|intros _ []].
        destruct o; [exact Hin | now apply remove_first_In in Hin].
      * exact I2.
    + destruct o; [exact I3 | now apply remove_first_names].
  - (* a disconnection *)
    destruct (existsb _ _) eqn:Ex; [|discriminate]. apply existsb_handler in Ex.
    destruct (get (rooms s) rid) as [r|] eqn:Hr; [|discriminate].
    unfold ws_room_disconnect. intros H. inversion H; subst; clear H.
    split; [|split]; simpl.
    + intros k r2.
      apply (rooms_update results_within_members (rooms s) rid _ I1).
      apply (within_members_step int_of_str float_of_str e rid (Leave u) r);
        [now apply (I1 rid) | exact I].
    + apply (handlers_update (rooms s) rid r _ (handlers s) _ (fun k => k = u) Hr).
      * intros k Hk Hne. simpl. apply keys_pop. now split.
      * intros h Hin. split; [now apply remove_first_In in Hin|].
        intros Hrid Hu.
        apply (remove_first_other_name _ _ _ I3 Ex Hin).
        destruct h as [[a b] c]. simpl in *. now subst.
      * exact I2.
    + now apply remove_first_names.
  - (* a timer *)
    destruct (existsb _ _); [|discriminate].
    unfold end_round_after, finalize_round.
    destruct (get (rooms s) rid) as [r|] eqn:Hr.
    + unfold finalize_room. intros H. inversion H; subst; clear H.
      split; [|split]; simpl.
      * intros k r2.
        apply (rooms_update results_within_members (rooms s) rid _ I1).
        destruct (I1 rid r Hr) as (Hwc & _ & _).
        repeat split; [exact Hwc | constructor | intros k' []].
      * apply (handlers_update (rooms s) rid r _ (handlers s) _ (fun _ => False) Hr).
        -- intros k Hk _. exact Hk.
        -- intros h Hin. split; [exact Hin | intros _ []].
        -- exact I2.
      * exact I3.
    + intros H. inversion H; subst; clear H.
      split; [exact I1 | split; [exact I2 | exact I3]].
Qed.

Lemma initial_inv : server_inv initial.
Proof.
  repeat split; simpl; try discriminate; try contradiction. constructor.
Qed.

(** In a run whose connections all come under fresh names, the invariant
    holds all along. *)
Lemma run_inv evs : forall s s' out,
  server_inv s -> fresh_names int_of_str float_of_str s evs ->
  run int_of_str float_of_str s evs = Some (s', out) ->
  server_inv s'.
Proof.
  induction evs as [|[e ev] evs IH]; simpl; intros s s' out Hinv Hf Hrun.
  - inversion Hrun. now subst.
  - destruct Hf as [Hf Hrest].
    destruct (step int_of_str float_of_str e s ev) as [[s1 o1]|] eqn:Hs;
      [|discriminate].
    destruct (run int_of_str float_of_str s1 evs) as [[s2 o2]|] eqn:Hr;
      [|discriminate].
    inversion Hrun; subst.
    apply (IH s1 s' o2); [now apply (step_inv e s ev s1 o1) | exact Hrest | exact Hr].
Qed.

(** From the start of the server: when no two live connections of a room
    share a username, no room ever has more results than clients. *)
Lemma unique_names_keep_results_within_members evs s' out room_id r :
  fresh_names int_of_str float_of_str initial evs ->
  run int_of_str float_of_str initial evs = Some (s', out) ->
  get (rooms s') room_id = Some r ->
  results_within_members r /\ (len (results r) <= len (clients r))%nat.
Proof.
  intros Hf Hrun Hr.
  destruct (run_inv evs initial s' out initial_inv Hf Hrun) as (I1 & _ & _).
  split; [now apply (I1 room_id) | apply within_members_len; now apply (I1 room_id)].
Qed.

End UniqueNames.

(** ** Runs of the server *)

(** C1, on a run. Alice is alone in room R; she starts a round at clock 95
    (it starts at 100, its timer is set for 117) and submits three taps at
    clock 104: every client has submitted, the round is finalized and she
    gets the ranking [alice: 3 validated, 3 reported]. At 117 the timer
    fires and [finalize_round] runs again, with nothing to stop it: she gets
    a second [round_end], with [alice: 0, 0], and that ranking replaces the
    first as the last ranking of the room. The start time is [None] after
    each of the two. *)
Lemma finalize_round_runs_twice :
  let early :=
    [(at_time 95, Connect "R" "alice" 1%nat);
     (at_time 95, Receive "R" "alice" 1%nat (message_of_type "request_start"));
     (at_time 104, Receive "R" "alice" 1%nat
                     (result_message 3 0 [101; 102; 103]%float))] in
  let timer := [(at_time 117, TimerFires "R" 117%float)] in
  let first := [mkRank "alice" 3 3] in
  let second := [mkRank "alice" 0 0] in
  run no_int no_float initial early
  = Some (mkServer [("R", mkRoom [("alice", 1%nat)] [] None 15 (Some first))]
                   [("R", "alice", 1%nat)] [("R", 117%float)],
          [SendText 1%nat (Presence ["alice"]);
           SendText 1%nat (Start 100 15);
           CreateTask "R" 117;
           SendText 1%nat (PartialResult "alice" 3);
           SendText 1%nat (RoundEnd first)])
  /\ run no_int no_float initial (early ++ timer)
     = Some (mkServer [("R", mkRoom [("alice", 1%nat)] [] None 15 (Some second))]
                      [("R", "alice", 1%nat)] [],
             [SendText 1%nat (Presence ["alice"]);
              SendText 1%nat (Start 100 15);
              CreateTask "R" 117;
              SendText 1%nat (PartialResult "alice" 3);
              SendText 1%nat (RoundEnd first);
              SendText 1%nat (RoundEnd second)])
  /\ option_map (fun so => round_ends_to 1%nat (snd so))
       (run no_int no_float initial (early ++ timer)) = Some 2%nat.
Proof. repeat split. Qed.

(** [finalize_round] in general. Without the room it does nothing. With
    it, a second call does what the first did, on the room the first left:
    whatever the first one sent, every connected client is sent a ranking
    again, all of zeros, and that ranking becomes the last ranking; the
    start time is [None] after both. *)
Lemma finalize_round_no_room e rooms room_id :
  get rooms room_id = None -> finalize_round e rooms room_id = (rooms, []).
Proof. intros H. unfold finalize_round. now rewrite H. Qed.

Lemma finalize_round_again e rooms room_id r :
  get rooms room_id = Some r ->
  let zeros := build_ranking (synthesize [] (keys (clients r))) in
  let rooms1 := fst (finalize_round e rooms room_id) in
  finalize_round e rooms1 room_id
  = (setitem rooms1 room_id
       (mkRoom (clients r) [] None (duration r) (Some zeros)),
     map (fun w => SendText w (RoundEnd zeros))
         (filter (connected e) (values (clients r)))).
Proof.
  intros Hr zeros rooms1. subst rooms1. unfold finalize_round at 2 3.
  rewrite Hr. simpl. unfold finalize_round. rewrite get_setitem_same.
  reflexivity.
Qed.

(** C3 as stated fails. Alice is in room R and sends a text that is not
    JSON: [json.loads] raises, the room is as it was, and her handler is
    not live any more, so that no further message of hers is handled. *)
Lemma unparsable_message_ends_the_loop :
  let r := mkRoom [("alice", 1%nat)] [] None 15 None in
  let s := mkServer [("R", r)] [("R", "alice", 1%nat)] [] in
  ws_room_message no_int no_float (at_time 95) "R" "alice" 1%nat Unparsable r
  = (Raise JSONDecodeError, r, [])
  /\ run no_int no_float initial [(at_time 95, Connect "R" "alice" 1%nat)]
     = Some (s, [SendText 1%nat (Presence ["alice"])])
  /\ step no_int no_float (at_time 95) s (Receive "R" "alice" 1%nat Unparsable)
     = Some (mkServer [("R", r)] [] [], [])
  /\ step no_int no_float (at_time 95) (mkServer [("R", r)] [] [])
       (Receive "R" "alice" 1%nat (message_of_type "join")) = None.
Proof. repeat split. Qed.

(** C4 as stated fails. Alice connects twice under her name, and the first
    connection closes: its handler removes the name from [clients], which
    held the second socket. On the second connection she starts a round and
    submits: the round is active, [results] has her entry, [clients] is
    empty. *)
Lemma results_outnumber_members :
  let r := mkRoom [] [("alice", mkResult 2 1 10%float)] (Some 100%float) 15
             None in
  run no_int no_float initial
    [(at_time 95, Connect "R" "alice" 1%nat);
     (at_time 95, Connect "R" "alice" 2%nat);
     (at_time 95, Disconnect "R" "alice" 1%nat);
     (at_time 95, Receive "R" "alice" 2%nat (message_of_type "request_start"));
     (at_time 104, Receive "R" "alice" 2%nat
                     (result_message 2 10 [94; -10]%float))]
  = Some (mkServer [("R", r)] [("R", "alice", 2%nat)] [("R", 117%float)],
          [SendText 1%nat (Presence ["alice"]);
           SendText 2%nat (Presence ["alice"]);
           CreateTask "R" 117])
  /\ (len (results r) > len (clients r))%nat
  /\ ~ incl (keys (results r)) (keys (clients r)).
Proof.
  repeat split.
  - simpl. lia.
  - intros H. apply (H "alice"). now left.
Qed.

(** ** The theorems at work *)

(** Window [100, 115], offset 10: the taps at 90 and 105 fall on the two
    bounds and count, those at 105.5 and 89.5 fall outside. *)
Lemma validated_count_is_window_count_witness :
  store_result no_int no_float (at_time 104) "alice"
    (result_fields 4 10 [90; 105; 105.5; 89.5]%float) 100 round_of_two
  = (Ret tt, stored "alice" round_of_two 4 2 10,
     [SendText 1%nat (PartialResult "alice" 2);
      SendText 2%nat (PartialResult "alice" 2)]).
Proof.
  exact (proj1 (validated_count_is_window_count no_int no_float (at_time 104)
                  "alice" (result_fields 4 10 [90; 105; 105.5; 89.5]%float)
                  100 round_of_two 4 10
                  (map JFloat [90; 105; 105.5; 89.5]%float)
                  [90; 105; 105.5; 89.5]%float
                  eq_refl eq_refl eq_refl eq_refl)).
Defined.

Lemma validated_count_bounded_witness :
  exists c off ts n,
    py_iter (get_default (result_fields 40 10 [90; 105; 105.5; 89.5]%float)
               "timestamps" (JList [])) = Ret ts
    /\ get (results (stored "alice" round_of_two 40 2 10)) "alice"
       = Some (mkResult c n off)
    /\ 0 <= n <= Z.of_nat (List.length ts)
    /\ forall count' r2 out2,
         store_result no_int no_float (at_time 104) "alice"
           (setitem (result_fields 40 10 [90; 105; 105.5; 89.5]%float)
              "count" count') 100 round_of_two = (Ret tt, r2, out2) ->
         exists c', get (results r2) "alice" = Some (mkResult c' n off).
Proof.
  exact (validated_count_bounded no_int no_float (at_time 104) "alice"
           (result_fields 40 10 [90; 105; 105.5; 89.5]%float) 100 round_of_two
           (stored "alice" round_of_two 40 2 10)
           [SendText 1%nat (PartialResult "alice" 2);
            SendText 2%nat (PartialResult "alice" 2)]
           eq_refl).
Defined.

(** A bare [{"type": "result"}] from Alice, alone in her round: stored as
    zeros, and the round ends at once. *)
Lemma missing_fields_default_witness :
  ws_room_message no_int no_float (at_time 104) "R" "alice" 1%nat
    (message_of_type "result") round_of_one
  = (Ret tt,
     mkRoom [("alice", 1%nat)] [] None 15 (Some [mkRank "alice" 0 0]),
     [SendText 1%nat (PartialResult "alice" 0);
      SendText 1%nat (RoundEnd [mkRank "alice" 0 0])]).
Proof.
  exact (proj2 (proj2 (proj2 (proj2 (proj2
           (missing_fields_default no_int no_float (at_time 104) "R" "alice"
              1%nat [("type", JStr "result")] 100 round_of_one
              eq_refl eq_refl))) eq_refl eq_refl eq_refl))).
Defined.

Lemma result_without_round_is_refused_witness :
  ws_room_message no_int no_float (at_time 104) "R" "alice" 1%nat
    (result_message 3 0 [101; 102; 103]%float) idle_room
  = (Ret tt, idle_room, [SendText 1%nat (Error "no active round")]).
Proof.
  exact (result_without_round_is_refused no_int no_float (at_time 104) "R"
           "alice" 1%nat (result_fields 3 0 [101; 102; 103]%float) idle_room
           eq_refl eq_refl).
Defined.

(** A start at clock 200 in a room whose round of 100 is still open, with
    two results in: the new round replaces it. *)
Lemma request_start_schedules_round_witness :
  ws_room_message no_int no_float (at_time 200) "R" "bob" 2%nat
    (message_of_type "request_start") round_of_three
  = (Ret tt,
     mkRoom [("alice", 1%nat); ("bob", 2%nat); ("carol", 3%nat)] []
            (Some 205%float) 15 None,
     [SendText 1%nat (Start 205 15); SendText 2%nat (Start 205 15);
      SendText 3%nat (Start 205 15); CreateTask "R" 222]).
Proof.
  exact (proj1 (request_start_schedules_round no_int no_float (at_time 200)
                  "R" "bob" 2%nat [("type", JStr "request_start")]
                  round_of_three eq_refl)).
Defined.

(** Carol has not submitted when the round of three is finalized. *)
Lemma finalize_synthesizes_and_resets_witness :
  finalize_round (at_time 117) [("R", round_of_three)] "R"
  = ([("R", mkRoom [("alice", 1%nat); ("bob", 2%nat); ("carol", 3%nat)] []
                   None 15
                   (Some [mkRank "bob" 6 9; mkRank "alice" 4 5;
                          mkRank "carol" 0 0]))],
     [SendText 1%nat (RoundEnd [mkRank "bob" 6 9; mkRank "alice" 4 5;
                                mkRank "carol" 0 0]);
      SendText 2%nat (RoundEnd [mkRank "bob" 6 9; mkRank "alice" 4 5;
                                mkRank "carol" 0 0]);
      SendText 3%nat (RoundEnd [mkRank "bob" 6 9; mkRank "alice" 4 5;
                                mkRank "carol" 0 0])]).
Proof.
  exact (proj1 (finalize_synthesizes_and_resets (at_time 117)
                  [("R", round_of_three)] "R" round_of_three eq_refl)).
Defined.

(** A result whose count is [null], in an active round: [int(None)] raises
    [TypeError]. *)
Lemma malformed_message_ends_handler_witness :
  let s := mkServer [("R", round_of_two)]
             [("R", "alice", 1%nat); ("R", "bob", 2%nat)] [("R", 117%float)] in
  let s' := mkServer [("R", round_of_two)] [("R", "bob", 2%nat)]
              [("R", 117%float)] in
  let raw := Json (JDict [("type", JStr "result"); ("count", JNull)]) in
  step no_int no_float (at_time 104) s (Receive "R" "alice" 1%nat raw)
    = Some (s', [])
  /\ rooms s' = rooms s
  /\ handlers s' = [("R", "bob", 2%nat)].
Proof.
  intros s s' raw. split; [reflexivity|].
  assert (Hm : malformed no_int no_float raw round_of_two).
  { simpl. split; [reflexivity|]. split; [discriminate|].
    left. exists TypeError. reflexivity. }
  destruct (malformed_message_ends_handler no_int no_float (at_time 104) s "R"
              "alice" 1%nat raw round_of_two s' [] eq_refl Hm eq_refl)
    as (_ & H1 & _ & _ & H2).
  split; [exact H1 | exact H2].
Defined.

Lemma results_within_members_preserved_witness :
  let r' := apply no_int no_float (at_time 104) "R"
              (Message "alice" 1%nat
                 (result_message 3 0 [101; 102; 103]%float)) round_of_two in
  results_within_members r'
  /\ (len (results r') <= len (clients r'))%nat.
Proof.
  apply (results_within_members_preserved no_int no_float (at_time 104) "R"
           (Message "alice" 1%nat (result_message 3 0 [101; 102; 103]%float))
           round_of_two).
  - unfold results_within_members, wf. simpl. repeat split.
    + repeat constructor; simpl; intuition discriminate.
    + constructor.
    + intros k [].
  - simpl. intros _. now left.
Defined.

(** * The rest of the server *)

(** ** More facts on dictionaries *)

Module PyDictMore.

Section More.
Context {V : Type}.
Implicit Types (d : dict V) (k : string) (v : V).

Lemma keys_setitem_exact d k v :
  keys (setitem d k v) = if contains d k then keys d else keys d ++ [k].
Proof.
  unfold contains, keys. induction d as [|[k' v'] d IH]; simpl; [reflexivity|].
  destruct (String.eqb_spec k' k) as [->|Hne]; simpl; [reflexivity|].
  rewrite IH. now destruct (get d k).
Qed.

Lemma len_setitem d k v :
  len (setitem d k v) = if contains d k then len d else S (len d).
Proof.
  rewrite !len_keys, keys_setitem_exact. destruct (contains d k); [reflexivity|].
  rewrite length_app. simpl. lia.
Qed.

Lemma setitem_twice d k v1 v2 : setitem (setitem d k v1) k v2 = setitem d k v2.
Proof.
  induction d as [|[k' v'] d IH]; simpl.
  - now rewrite String.eqb_refl.
  - destruct (String.eqb k' k) eqn:E; simpl.
    + now rewrite String.eqb_refl.
    + now rewrite E, IH.
Qed.

Lemma pop_absent d k : ~ In k (keys d) -> pop d k = d.
Proof.
  unfold keys. induction d as [|[k' v'] d IH]; simpl; [reflexivity|].
  intros H. destruct (String.eqb_spec k' k) as [->|Hne]; [tauto|].
  rewrite IH; tauto.
Qed.

Lemma pop_setitem_fresh d k v : ~ In k (keys d) -> pop (setitem d k v) k = d.
Proof.
  unfold keys. induction d as [|[k' v'] d IH]; simpl; intros H.
  - now rewrite String.eqb_refl.
  - destruct (String.eqb_spec k' k) as [->|Hne]; [tauto|]. simpl.
    destruct (String.eqb_spec k' k); [contradiction|]. rewrite IH; tauto.
Qed.

Lemma get_pop_same d k : get (pop d k) k = None.
Proof.
  induction d as [|[k' v'] d IH]; simpl; [reflexivity|].
  destruct (String.eqb k' k) eqn:E; simpl; [exact IH|]. now rewrite E.
Qed.

Lemma get_pop_other d k k' : k <> k' -> get (pop d k) k' = get d k'.
Proof.
  intros Hne. induction d as [|[k0 v0] d IH]; simpl; [reflexivity|].
  destruct (String.eqb_spec k0 k) as [->|H0]; simpl.
  - destruct (String.eqb_spec k k'); [contradiction | exact IH].
  - now rewrite IH.
Qed.

Lemma get_keys d k v : get d k = Some v -> In k (keys d).
Proof.
  intros H. apply contains_keys. unfold contains. now rewrite H.
Qed.

Lemma get_none_keys d k : get d k = None <-> ~ In k (keys d).
Proof.
  rewrite <- contains_false_keys. unfold contains.
  destruct (get d k); split; congruence.
Qed.

End More.

End PyDictMore.

Import PyDictMore.

(** ** [broadcast] *)

(** X1. [broadcast] sends the message to the sockets of the room that are
    connected, and does nothing else: an effect of a broadcast is the
    message sent to a socket that is a value of [clients] in the room of
    that name and is connected, and each such socket is sent it. Without
    the room nothing is sent. *)
Theorem broadcast_reaches_connected_members e (rs : dict room) room_id m o :
  In o (broadcast e rs room_id m) <->
  exists r w, get rs room_id = Some r
              /\ In w (values (clients r))
              /\ connected e w = true
              /\ o = SendText w m.
Proof.
  unfold broadcast. destruct (get rs room_id) as [r|].
  - unfold broadcast_room. rewrite in_map_iff. split.
    + intros (w & <- & Hw). apply filter_In in Hw. destruct Hw as [Hw Hc].
      exists r, w. auto.
    + intros (r0 & w & Hr & Hw & Hc & ->). inversion Hr; subst r0.
      exists w. split; [reflexivity|]. apply filter_In. auto.
  - split; [intros [] | intros (r & w & Hr & _); discriminate].
Qed.

(** ** The branches of the loop that only answer *)

Section Queries.

Variable int_of_str : string -> option Z.
Variable float_of_str : string -> option float.
Variable e : env.
Variable room_id : string.
Variable username : string.
Variable ws : websocket.

Local Abbreviation ws_room_message :=
  (ws_room_message int_of_str float_of_str e room_id username ws).

(** X2. A message whose type is none of [timesync], [join],
    [request_start] and [result] (another string, a value that is not a
    string, no type at all) is ignored: nothing is sent, the room is as it
    was, and the loop goes on. *)
Theorem unknown_type_is_ignored msg r :
  is_str (get_default msg "type" JNull) "timesync" = false ->
  is_str (get_default msg "type" JNull) "join" = false ->
  is_str (get_default msg "type" JNull) "request_start" = false ->
  is_str (get_default msg "type" JNull) "result" = false ->
  ws_room_message (Json (JDict msg)) r = (Ret tt, r, []).
Proof.
  intros H1 H2 H3 H4. unfold ws_room_message, bind, lift.
  cbn -[on_result on_request_start is_str]. now rewrite H1, H2, H3, H4.
Qed.

(** X3. The two queries are answered to the socket they came from and to
    no other, whatever else the message carries, and leave the room as it
    is: [timesync] with the clock of the server, [join] with the names of
    the clients in the order they joined, the start time of the round
    ([None] between rounds) and the duration. *)
Theorem queries_answer_the_sender msg r :
  (get_default msg "type" JNull = JStr "timesync" ->
   ws_room_message (Json (JDict msg)) r
   = (Ret tt, r, [SendText ws (TimesyncResp (now e))]))
  /\ (get_default msg "type" JNull = JStr "join" ->
      ws_room_message (Json (JDict msg)) r
      = (Ret tt, r,
         [SendText ws (RoomInfo (keys (clients r)) (start_time r)
                         (duration r))])).
Proof.
  split; intros Ht; unfold ws_room_message, bind, lift;
    cbn -[on_result on_request_start]; rewrite Ht; reflexivity.
Qed.

(** X4. No message changes who is in the room nor the duration of its
    rounds; and a message that is neither a [request_start] nor a [result]
    changes nothing in the room, creates no task, and has nothing sent but
    to the socket it came from. *)
Theorem only_start_and_result_change_room raw r :
  let '(o, r', out) := ws_room_message raw r in
  clients r' = clients r
  /\ duration r' = duration r
  /\ (is_start_message raw = false -> is_result_message raw = false ->
      r' = r /\ created_tasks out = [] /\ Forall (sent_to ws) out).
Proof.
  destruct raw as [|v]; [now repeat split|].
  destruct v as [| | | | | |msg]; try now repeat split.
  unfold ws_room_message, bind, lift.
  cbn -[on_result on_request_start is_str].
  destruct (is_str _ "timesync").
  { repeat split. repeat constructor. now eexists. }
  destruct (is_str _ "join").
  { repeat split. repeat constructor. now eexists. }
  destruct (is_str _ "request_start").
  { repeat split; discriminate. }
  destruct (is_str _ "result") eqn:Ht; [|now repeat split].
  pose proof (on_result_effect int_of_str float_of_str e username ws msg r Ht)
    as He.
  assert (Hd : duration (snd (fst (on_result int_of_str float_of_str e
                                     username ws msg r))) = duration r).
  { destruct (start_time r) as [start|] eqn:Hs.
    - rewrite (on_result_active _ _ _ _ _ _ _ _ Hs), store_result_unfold.
      destruct (py_int _ _); [|reflexivity].
      destruct (py_float _ _); [|reflexivity].
      destruct (py_iter _); [|reflexivity].
      destruct (count_valid _ _ _ _ _ _); [|reflexivity].
      destruct (Nat.eqb _ _); reflexivity.
    - unfold on_result, bind, read, send_text, emit. cbv beta iota.
      now rewrite Hs. }
  destruct (on_result _ _ _ _ _ msg r) as [[o r'] out].
  destruct He as [Hc _]. simpl in Hd.
  repeat split; [exact Hc | exact Hd | | |]; discriminate.
Qed.

End Queries.

(** ** Connection and disconnection *)

Section Comings.

Variable e : env.

(** X5. A connection finds the room of that name or makes it (no client,
    no result, no round, duration 15), and registers the socket under the
    username: the username now maps to the socket; the other clients, the
    results, the round, the duration and the last ranking of the room are
    as they were, and so are the other rooms. A new username goes last in
    the list of users, a username already there keeps its place, so that
    the list is unchanged. The list is broadcast to the connected sockets
    of the room as it now is. *)
Theorem accept_registers_the_client (rs : dict room) room_id username ws :
  let r0 := setdefault rs room_id in
  let rs' := fst (ws_room_accept e rs room_id username ws) in
  let out := snd (ws_room_accept e rs room_id username ws) in
  exists r',
    get rs' room_id = Some r'
    /\ get (clients r') username = Some ws
    /\ (forall u, u <> username -> get (clients r') u = get (clients r0) u)
    /\ keys (clients r')
       = (if contains (clients r0) username then keys (clients r0)
          else keys (clients r0) ++ [username])
    /\ (results r', start_time r', duration r', last_ranking r')
       = (results r0, start_time r0, duration r0, last_ranking r0)
    /\ (get rs room_id = None -> r' = mkRoom [(username, ws)] [] None 15 None)
    /\ (forall k, k <> room_id -> get rs' k = get rs k)
    /\ out = map (fun w => SendText w (Presence (keys (clients r'))))
               (filter (connected e) (values (clients r'))).
Proof.
  intros r0 rs' out. subst rs' out. rewrite ws_room_accept_join. simpl.
  fold r0. eexists. split; [apply get_setitem_same|]. simpl.
  split; [apply get_setitem_same|].
  split; [intros u Hu; now apply get_setitem_other|].
  split; [apply keys_setitem_exact|].
  split; [reflexivity|].
  split; [|split; [intros k Hk; now apply get_setitem_other | reflexivity]].
  intros Hn. unfold r0, setdefault. now rewrite Hn.
Qed.

(** X6. A disconnection takes the username out of the clients and out of
    the results, and nothing else: the other clients and the other results
    are as they were, and so are the round (a leave never closes it), the
    duration and the last ranking. The list of those who remain is
    broadcast to them. When the username is neither a client nor in the
    results the room does not change. *)
Theorem leave_removes_the_client username r :
  let r' := fst (ws_room_disconnect e username r) in
  let out := snd (ws_room_disconnect e username r) in
  get (clients r') username = None
  /\ get (results r') username = None
  /\ (forall u, u <> username ->
        get (clients r') u = get (clients r) u
        /\ get (results r') u = get (results r) u)
  /\ (start_time r', duration r', last_ranking r')
     = (start_time r, duration r, last_ranking r)
  /\ out = map (fun w => SendText w (Presence (keys (clients r'))))
             (filter (connected e) (values (clients r')))
  /\ (~ In username (keys (clients r)) -> ~ In username (keys (results r)) ->
      r' = r).
Proof.
  simpl. split; [apply get_pop_same|]. split; [apply get_pop_same|].
  split; [intros u Hu; split; apply get_pop_other; congruence|].
  split; [reflexivity|]. split; [reflexivity|].
  intros Hc Hr. unfold set_results, set_clients. simpl.
  rewrite (pop_absent _ _ Hc), (pop_absent _ _ Hr). now destruct r.
Qed.

(** X7. Coming and going: a client who joins under a username that is
    neither a client nor in the results, and leaves, leaves the room as it
    was before the join. *)
Theorem join_then_leave_restores e2 username ws r :
  ~ In username (keys (clients r)) ->
  ~ In username (keys (results r)) ->
  fst (ws_room_disconnect e2 username (fst (ws_room_join e username ws r))) = r.
Proof.
  intros Hc Hr. simpl. unfold set_results, set_clients. simpl.
  rewrite (pop_setitem_fresh _ _ _ Hc), (pop_absent _ _ Hr). now destruct r.
Qed.

End Comings.

(** ** The ranking and the members *)

Lemma synthesize_nothing (res : dict result) users :
  (forall u, In u users -> contains res u = true) -> synthesize res users = res.
Proof.
  unfold synthesize. induction users as [|u users IH]; intros H; simpl;
    [reflexivity|].
  rewrite (H u (or_introl eq_refl)). apply IH. intros v Hv. apply H. now right.
Qed.

Lemma keys_synthesize (res : dict result) users k :
  In k (keys (synthesize res users)) <-> In k (keys res) \/ In k users.
Proof.
  unfold synthesize. revert res.
  induction users as [|u users IH]; intros res; simpl; [tauto|].
  rewrite IH. destruct (contains res u) eqn:C.
  - apply contains_keys in C. intuition (subst; auto).
  - rewrite keys_setitem. intuition.
Qed.

Lemma wf_synthesize (res : dict result) users :
  wf res -> wf (synthesize res users).
Proof.
  unfold synthesize. revert res.
  induction users as [|u users IH]; intros res H; simpl; [exact H|].
  apply IH. destruct (contains res u); [exact H | now apply wf_setitem].
Qed.

Lemma entries_users (res : dict result) : map entry_user (entries_of res) = keys res.
Proof.
  unfold entries_of, keys. rewrite map_map. reflexivity.
Qed.

(** All the clients have an entry exactly when results and clients are as
    many, in a room whose results are within its members. *)
Lemma all_submitted_iff_len r :
  results_within_members r ->
  Nat.eqb (len (results r)) (len (clients r)) = true
  <-> (forall u, In u (keys (clients r)) -> In u (keys (results r))).
Proof.
  intros (Hwc & Hwr & Hincl). rewrite Nat.eqb_eq, !len_keys. split.
  - intros Hlen. apply NoDup_length_incl; [exact Hwr | lia | exact Hincl].
  - intros Hall. apply Nat.le_antisymm; now apply NoDup_incl_length.
Qed.

(** X11. Every member is ranked once. In a room whose results are within
    its members, the users of the ranking of a finalization are the clients
    of the room, each of them once, and no one else. *)
Theorem ranking_lists_each_member_once e r :
  results_within_members r ->
  Permutation
    (map entry_user
       (build_ranking (synthesize (results r) (keys (clients r)))))
    (keys (clients r))
  /\ last_ranking (fst (finalize_room e r))
     = Some (build_ranking (synthesize (results r) (keys (clients r)))).
Proof.
  intros (Hwc & Hwr & Hincl). split; [|reflexivity].
  rewrite build_ranking_entries.
  rewrite (Permutation_map entry_user (SortFacts.sorted_perm rank_key _)).
  rewrite entries_users. apply NoDup_Permutation.
  - now apply wf_synthesize.
  - exact Hwc.
  - intros k. rewrite keys_synthesize. split; [intros [H|H]; auto | auto].
Qed.

(** X12. The winner. The first of the ranking has the most validated
    taps: no entry of the ranking has more, and an entry with as many has
    no more reported taps. *)
Theorem first_of_ranking_is_best (res : dict result) w rest x :
  build_ranking res = w :: rest ->
  In x (build_ranking res) ->
  entry_validated x <= entry_validated w
  /\ (entry_validated x = entry_validated w ->
      entry_reported x <= entry_reported w).
Proof.
  intros Hk Hx.
  pose proof (SortFacts.sorted_sorted rank_key (entries_of res)) as Hs.
  rewrite <- build_ranking_entries, Hk in Hs. rewrite Hk in Hx.
  destruct Hx as [<-|Hx]; [split; lia|].
  inversion Hs as [|? ? _ Hall]; subst.
  rewrite Forall_forall in Hall. specialize (Hall x Hx).
  apply SortFacts.not_after_rank in Hall. unfold ranks_before in Hall. lia.
Qed.

(** ** Submissions, the early end of the round and the ranking *)

Section Rounds.

Variable int_of_str : string -> option Z.
Variable float_of_str : string -> option float.
Variable e : env.
Variable room_id : string.
Variable username : string.
Variable ws : websocket.

Local Abbreviation store_result :=
  (store_result int_of_str float_of_str e username).
Local Abbreviation ws_room_message :=
  (ws_room_message int_of_str float_of_str e room_id username ws).

(** X8. The last submission wins. When a client submits again in the same
    round, the room and the messages are those of the second submission
    made alone: nothing of the first is left, and the results are as many
    as after the first. *)
Theorem resubmission_replaces msg1 msg2 start r r1 o1 r2 o2 :
  store_result msg1 start r = (Ret tt, r1, o1) ->
  store_result msg2 start r = (Ret tt, r2, o2) ->
  store_result msg2 start r1 = (Ret tt, r2, o2)
  /\ len (results r2) = len (results r1).
Proof.
  intros H1 H2.
  apply store_result_accepted in H1.
  destruct H1 as (c1 & f1 & ts1 & fs1 & _ & _ & _ & _ & ->).
  pose proof H2 as H2'. apply store_result_accepted in H2'.
  destruct H2' as (c2 & f2 & ts2 & fs2 & Hc & Ho & Hi & Hf & ->).
  assert (Hst : forall n,
             stored username (stored username r c1
               (spec_validated_count start (window_end r start) f1 fs1) f1)
               c2 n f2 = stored username r c2 n f2).
  { intros n. unfold stored, set_results. simpl. now rewrite setitem_twice. }
  rewrite store_result_unfold, Hc, Ho, Hi, count_valid_floats_of, Hf in H2.
  inversion H2 as [[Hr2 Ho2]]. clear H2.
  split.
  - rewrite store_result_unfold, Hc, Ho, Hi, count_valid_floats_of, Hf.
    change (window_end (stored username r c1
              (spec_validated_count start (window_end r start) f1 fs1) f1)
              start) with (window_end r start).
    now rewrite !Hst.
  - unfold stored. simpl. rewrite !len_setitem.
    unfold contains. now destruct (get (results r) username).
Qed.

(** The room after an accepted result in an open round: the submission is
    stored, and the round finalized at once when results and clients are
    then as many. *)
Lemma result_in_round msg start r r' out :
  get_default msg "type" JNull = JStr "result" ->
  start_time r = Some start ->
  ws_room_message (Json (JDict msg)) r = (Ret tt, r', out) ->
  exists r1 o1,
    store_result msg start r = (Ret tt, r1, o1)
    /\ (r', out)
       = if Nat.eqb (len (results r1)) (len (clients r1))
         then (fst (finalize_room e r1), o1 ++ snd (finalize_room e r1))
         else (r1, o1).
Proof.
  intros Ht Hs. rewrite (ws_room_message_result _ _ _ _ _ _ _ _ Ht).
  rewrite (on_result_active _ _ _ _ _ _ _ _ Hs).
  destruct (store_result msg start r) as [[[[]|x] r1] o1]; [|discriminate].
  intros H. exists r1, o1. split; [reflexivity|].
  destruct (Nat.eqb _ _); inversion H; subst; now rewrite ?app_nil_r.
Qed.

(** X9. The round ends early exactly when every client has submitted. In
    a room whose results are within its members, an accepted result from a
    client closes the round (the start time is [None] after it) if and only
    if every other client of the room has a result already. *)
Theorem early_end_iff_all_submitted msg start r r' out :
  results_within_members r ->
  In username (keys (clients r)) ->
  get_default msg "type" JNull = JStr "result" ->
  start_time r = Some start ->
  ws_room_message (Json (JDict msg)) r = (Ret tt, r', out) ->
  start_time r' = None
  <-> (forall u, In u (keys (clients r)) ->
         u = username \/ In u (keys (results r))).
Proof.
  intros Hinv Hin Ht Hs Hm.
  destruct (result_in_round msg start r r' out Ht Hs Hm)
    as (r1 & o1 & Hst & Hr').
  pose proof Hst as Hacc. apply store_result_accepted in Hacc.
  destruct Hacc as (c & off & ts & fs & _ & _ & _ & _ & Hr1).
  assert (Hinv1 : results_within_members r1).
  { subst r1. destruct Hinv as (Hwc & Hwr & Hincl).
    repeat split; simpl; [exact Hwc | now apply wf_setitem|].
    intros k Hk. apply keys_setitem in Hk. destruct Hk as [->|Hk]; auto. }
  assert (Hall : (forall u, In u (keys (clients r1)) -> In u (keys (results r1)))
                 <-> (forall u, In u (keys (clients r)) ->
                        u = username \/ In u (keys (results r)))).
  { subst r1. simpl. split; intros H u Hu.
    - specialize (H u Hu). now apply keys_setitem in H.
    - apply keys_setitem. now apply H. }
  rewrite <- Hall, <- (all_submitted_iff_len r1 Hinv1).
  destruct (Nat.eqb _ _); inversion Hr'; subst r'.
  - split; reflexivity.
  - subst r1. simpl. rewrite Hs. split; discriminate.
Qed.

(** X10. A round that ends early is ranked on what was submitted: when an
    accepted result closes the round, in a room whose results are within
    its members, no entry is made up, and the ranking kept as last ranking
    and sent to every connected client is the ranking of the results as
    they stand once that submission is stored. *)
Theorem early_ranking_is_of_submissions msg start r r' out :
  results_within_members r ->
  In username (keys (clients r)) ->
  get_default msg "type" JNull = JStr "result" ->
  start_time r = Some start ->
  ws_room_message (Json (JDict msg)) r = (Ret tt, r', out) ->
  start_time r' = None ->
  exists r1 o1,
    store_result msg start r = (Ret tt, r1, o1)
    /\ last_ranking r' = Some (build_ranking (results r1))
    /\ results r' = []
    /\ forall w, In w (values (clients r)) -> connected e w = true ->
         In (SendText w (RoundEnd (build_ranking (results r1)))) out.
Proof.
  intros Hinv Hin Ht Hs Hm Hend.
  destruct (result_in_round msg start r r' out Ht Hs Hm)
    as (r1 & o1 & Hst & Hr').
  exists r1, o1. split; [exact Hst|].
  pose proof Hst as Hacc. apply store_result_accepted in Hacc.
  destruct Hacc as (c & off & ts & fs & _ & _ & _ & _ & Hr1).
  assert (Hinv1 : results_within_members r1).
  { subst r1. destruct Hinv as (Hwc & Hwr & Hincl).
    repeat split; simpl; [exact Hwc | now apply wf_setitem|].
    intros k Hk. apply keys_setitem in Hk. destruct Hk as [->|Hk]; auto. }
  assert (Hcl : clients r1 = clients r) by now subst r1.
  destruct (Nat.eqb (len (results r1)) (len (clients r1))) eqn:E.
  - pose proof (proj1 (all_submitted_iff_len r1 Hinv1) E) as E'.
    inversion Hr'; subst r' out. clear Hr'.
    assert (Hsyn : synthesize (results r1) (keys (clients r1)) = results r1).
    { apply synthesize_nothing. intros u Hu. apply contains_keys.
      now apply E'. }
    unfold finalize_room. simpl. rewrite Hsyn.
    split; [reflexivity|]. split; [reflexivity|].
    intros w Hw Hc. apply in_or_app. right. unfold broadcast_room. simpl.
    apply in_map_iff. exists w. split; [reflexivity|]. apply filter_In.
    rewrite Hcl. auto.
  - inversion Hr'; subst r'. subst r1. simpl in Hend. congruence.
Qed.

End Rounds.

(** ** The sleep of the timer *)

Lemma SFltb_leb (a b : spec_float) : SFltb a b = true -> SFleb a b = true.
Proof.
  unfold SFltb, SFleb. destruct (SFcompare a b) as [[]|]; congruence.
Qed.

(** X13. [end_round_after] never sleeps a negative time: the time it
    sleeps is zero or above, whatever the clock and the deadline (a NaN
    among them included); it is the time left when the deadline is ahead of
    the clock, and zero when the deadline is not. *)
Theorem end_round_sleep_is_not_negative t when :
  PrimFloat.leb 0%float (end_round_sleep t when) = true
  /\ (PrimFloat.ltb 0%float (PrimFloat.sub when t) = true ->
      end_round_sleep t when = PrimFloat.sub when t)
  /\ (PrimFloat.ltb 0%float (PrimFloat.sub when t) = false ->
      end_round_sleep t when = 0%float).
Proof.
  unfold end_round_sleep.
  destruct (PrimFloat.ltb 0%float (PrimFloat.sub when t)) eqn:E.
  - repeat split; try discriminate.
    rewrite ltb_spec in E. rewrite leb_spec. now apply SFltb_leb.
  - repeat split; discriminate.
Qed.

(** ** What the server keeps, run after run *)

Section Kept.

Variable int_of_str : string -> option Z.
Variable float_of_str : string -> option float.

Lemma contains_setitem {V : Type} (d : dict V) k v k' :
  contains (setitem d k v) k' = String.eqb k k' || contains d k'.
Proof.
  unfold contains. destruct (String.eqb_spec k k') as [->|Hne].
  - now rewrite get_setitem_same.
  - now rewrite get_setitem_other.
Qed.

Lemma contains_get {V : Type} (d : dict V) k :
  contains d k = true -> exists v, get d k = Some v.
Proof. unfold contains. destruct (get d k) as [v|]; [eauto | discriminate]. Qed.

Lemma room_ok_new : room_ok new_room.
Proof.
  repeat split; simpl; try constructor; try discriminate.
Qed.

Lemma room_ok_join e username ws r :
  room_ok r -> room_ok (fst (ws_room_join e username ws r)).
Proof.
  intros (Hd & Hn & Hwc & Hwr & Hv & Hk). simpl.
  repeat split; simpl; auto. now apply wf_setitem.
Qed.

Lemma room_ok_disconnect e username r :
  room_ok r -> room_ok (fst (ws_room_disconnect e username r)).
Proof.
  intros (Hd & Hn & Hwc & Hwr & Hv & Hk). simpl.
  repeat split; simpl; auto.
  - intros H. now rewrite (Hn H).
  - now apply wf_pop.
  - now apply wf_pop.
  - intros u x. destruct (String.eqb_spec username u) as [->|Hne].
    + now rewrite get_pop_same.
    + rewrite get_pop_other by exact Hne. apply Hv.
Qed.

Lemma room_ok_finalize e r : room_ok r -> room_ok (fst (finalize_room e r)).
Proof.
  intros (Hd & Hn & Hwc & Hwr & Hv & Hk). unfold finalize_room. simpl.
  repeat split; simpl; auto; try constructor; try discriminate.
  intros k H. inversion H; subst k.
  apply SortFacts.StronglySorted_weaken with (P := not_after rank_key).
  - intros a b. apply SortFacts.not_after_rank.
  - apply SortFacts.sorted_sorted.
Qed.

Lemma room_ok_stored username r c n off :
  room_ok r -> start_time r <> None -> 0 <= n ->
  room_ok (stored username r c n off).
Proof.
  intros (Hd & Hn & Hwc & Hwr & Hv & Hk) Hs Hpos. unfold stored.
  repeat split; simpl; auto.
  - intros H. contradiction.
  - now apply wf_setitem.
  - intros u x. destruct (String.eqb_spec username u) as [->|Hne].
    + rewrite get_setitem_same. intros H. inversion H. now subst.
    + rewrite get_setitem_other by exact Hne. apply Hv.
Qed.

Lemma remove_first_incl {A : Type} (eqb : A -> A -> bool) (x y : A) l :
  In y (remove_first eqb x l) -> In y l.
Proof.
  induction l as [|z l IH]; simpl; [tauto|].
  destruct (eqb x z); simpl; intuition.
Qed.

Lemma created_tasks_app o1 o2 :
  created_tasks (o1 ++ o2) = created_tasks o1 ++ created_tasks o2.
Proof. unfold created_tasks. apply flat_map_app. Qed.

(** One message keeps the room in order, and the only tasks it creates are
    for the room of its handler. *)
Lemma message_keeps_room_ok e room_id username ws raw r :
  room_ok r ->
  let '(o, r', out) :=
    ws_room_message int_of_str float_of_str e room_id username ws raw r in
  room_ok r' /\ (forall t, In t (created_tasks out) -> fst t = room_id).
Proof.
  intros Hok.
  destruct raw as [|v]; [split; [exact Hok | intros t []]|].
  destruct v as [| | | | | |msg]; try (split; [exact Hok | intros t []]).
  unfold ws_room_message, bind, lift.
  cbn -[on_result on_request_start is_str].
  destruct (is_str _ "timesync"); [split; [exact Hok | intros t []]|].
  destruct (is_str _ "join"); [split; [exact Hok | intros t []]|].
  destruct (is_str _ "request_start").
  { unfold on_request_start, bind, modify, read, broadcast_here, emit.
    cbn -[broadcast_room]. split.
    - destruct Hok as (Hd & Hn & Hwc & Hwr & Hv & Hk).
      repeat split; simpl; auto; try constructor; try discriminate.
    - intros t. rewrite created_tasks_app, created_tasks_broadcast. simpl.
      intros [<-|[]]. reflexivity. }
  destruct (is_str _ "result") eqn:Ht; [|split; [exact Hok | intros t []]].
  destruct (start_time r) as [start|] eqn:Hs.
  - rewrite (on_result_active _ _ _ _ _ _ _ _ Hs), store_result_unfold.
    destruct (py_int _ _) as [c|]; [|split; [exact Hok | intros t []]].
    destruct (py_float _ _) as [off|]; [|split; [exact Hok | intros t []]].
    destruct (py_iter _) as [ts|]; [|split; [exact Hok | intros t []]].
    rewrite count_valid_floats_of.
    destruct (floats_of float_of_str ts) as [fs|];
      [|split; [exact Hok | intros t []]].
    assert (Hst : room_ok (stored username r c
                    (0 + spec_validated_count start (window_end r start) off fs)
                    off)).
    { apply room_ok_stored; [exact Hok | congruence|].
      pose proof (spec_validated_count_bounds start (window_end r start) off fs).
      lia. }
    destruct (Nat.eqb _ _).
    + split; [now apply room_ok_finalize|].
      intros t. unfold finalize_room. cbn -[broadcast_room].
      rewrite created_tasks_app, !created_tasks_broadcast. intros [].
    + split; [exact Hst|].
      intros t. rewrite created_tasks_app, created_tasks_broadcast.
      intros [].
  - unfold on_result, bind, read, send_text, emit. cbv beta iota.
    rewrite Hs. split; [exact Hok | intros t []].
Qed.

(** One event keeps the server in order. *)
Lemma step_keeps_server_ok e s ev s' out :
  server_ok s ->
  step int_of_str float_of_str e s ev = Some (s', out) ->
  server_ok s'.
Proof.
  intros (Hw & Hrooms & Hh & Ht).
  assert (Hsub : forall rid (r1 : room) hs ts,
             room_ok r1 ->
             (forall h, In h hs ->
                In h (handlers s) \/ fst (fst h) = rid) ->
             (forall t, In t ts -> In t (tasks s) \/ fst t = rid) ->
             server_ok (mkServer (setitem (rooms s) rid r1) hs ts)).
  { intros rid r1 hs ts H1 H2 H3. split; [|split; [|split]]; simpl.
    - now apply wf_setitem.
    - intros k r. now apply (rooms_update room_ok (rooms s) rid r1 Hrooms).
    - intros h Hin. rewrite contains_setitem. destruct (H2 h Hin) as [H|<-].
      + rewrite (Hh h H). apply orb_true_r.
      + now rewrite String.eqb_refl.
    - intros t Hin. rewrite contains_setitem. destruct (H3 t Hin) as [H|<-].
      + rewrite (Ht t H). apply orb_true_r.
      + now rewrite String.eqb_refl. }
  destruct ev as [rid u w|rid u w raw|rid u w|rid when]; unfold step.
  - destruct (existsb _ _); [discriminate|].
    rewrite ws_room_accept_join. intros H. inversion H; subst; clear H.
    apply Hsub.
    + apply (room_ok_join e u w). unfold setdefault.
      destruct (get (rooms s) rid) eqn:G; [now apply (Hrooms rid)|].
      apply room_ok_new.
    + intros h Hin. apply in_app_or in Hin. destruct Hin as [Hin|[<-|[]]]; auto.
    + auto.
  - destruct (existsb _ _); [|discriminate].
    destruct (get (rooms s) rid) as [r|] eqn:Hr; [|discriminate].
    pose proof (message_keeps_room_ok e rid u w raw r (Hrooms rid r Hr)) as Hm.
    destruct (ws_room_message _ _ _ _ _ _ raw r) as [[o r'] out'].
    destruct Hm as [Hok Htasks].
    intros H. inversion H; subst; clear H. apply Hsub; [exact Hok| |].
    + intros h Hin. left.
      destruct o; [exact Hin | now apply remove_first_In in Hin].
    + intros t Hin. apply in_app_or in Hin. destruct Hin as [Hin|Hin]; auto.
  - destruct (existsb _ _); [|discriminate].
    destruct (get (rooms s) rid) as [r|] eqn:Hr; [|discriminate].
    intros H. inversion H; subst; clear H. apply Hsub.
    + apply (room_ok_disconnect e u r). now apply (Hrooms rid).
    + intros h Hin. left. now apply remove_first_In in Hin.
    + auto.
  - destruct (existsb _ _); [|discriminate].
    pose proof (fun t => remove_first_incl task_eqb (rid, when) t (tasks s))
      as Hts.
    unfold end_round_after, finalize_round.
    destruct (get (rooms s) rid) as [r|] eqn:Hr.
    + destruct (finalize_room e r) as [r' out'] eqn:Hf.
      intros H. inversion H; subst; clear H. apply Hsub; auto.
      change r' with (fst (r', out)). rewrite <- Hf.
      apply room_ok_finalize. now apply (Hrooms rid).
    + intros H. inversion H; subst; clear H.
      split; [|split; [|split]]; simpl; auto.
Qed.

Lemma initial_ok : server_ok initial.
Proof.
  repeat split; simpl; try constructor; try discriminate; try contradiction.
Qed.

Lemma run_keeps_server_ok evs : forall s s' out,
  server_ok s ->
  run int_of_str float_of_str s evs = Some (s', out) ->
  server_ok s'.
Proof.
  induction evs as [|[e ev] evs IH]; simpl; intros s s' out Hok Hrun.
  - inversion Hrun. now subst.
  - destruct (step int_of_str float_of_str e s ev) as [[s1 o1]|] eqn:Hs;
      [|discriminate].
    destruct (run int_of_str float_of_str s1 evs) as [[s2 o2]|] eqn:Hr;
      [|discriminate].
    inversion Hrun; subst.
    apply (IH s1 s' o2); [now apply (step_keeps_server_ok e s ev s1 o1) | exact Hr].
Qed.

(** X14. Between rounds a room holds no result. In every run of the server
    from its start, a room whose start time is [None] has an empty
    [results]: results are written in an open round only, and go when the
    round is finalized or a new one started. *)
Theorem no_result_outside_a_round evs s out room_id r :
  run int_of_str float_of_str initial evs = Some (s, out) ->
  get (rooms s) room_id = Some r ->
  start_time r = None ->
  results r = [].
Proof.
  intros Hrun Hr Hs.
  destruct (run_keeps_server_ok evs initial s out initial_ok Hrun)
    as (_ & Hrooms & _).
  destruct (Hrooms room_id r Hr) as (_ & Hn & _). now apply Hn.
Qed.

(** X15. The length of the rounds never changes, and no score is
    negative. In every run of the server from its start, every room has
    the duration 15 it was made with, every result stored has a validated
    count of zero or more, and the last ranking of a room, when it has one,
    is in order: more validated taps first, then more reported taps. *)
Theorem rooms_stay_in_order evs s out room_id r :
  run int_of_str float_of_str initial evs = Some (s, out) ->
  get (rooms s) room_id = Some r ->
  duration r = 15
  /\ (forall u x, get (results r) u = Some x -> 0 <= validated x)
  /\ (forall k, last_ranking r = Some k -> StronglySorted ranks_before k).
Proof.
  intros Hrun Hr.
  destruct (run_keeps_server_ok evs initial s out initial_ok Hrun)
    as (_ & Hrooms & _).
  destruct (Hrooms room_id r Hr) as (Hd & _ & _ & _ & Hv & Hk). auto.
Qed.

(** X16. A timer always finds its room. In every run of the server from
    its start, the room of a pending [end_round_after] task exists: when
    the task wakes up, [finalize_round] does not return early, it finalizes
    that room; and the room of a live handler exists as well. *)
Theorem timers_find_their_room evs s out :
  run int_of_str float_of_str initial evs = Some (s, out) ->
  (forall room_id when e, In (room_id, when) (tasks s) ->
     exists r,
       get (rooms s) room_id = Some r
       /\ end_round_after e (rooms s) room_id
          = (setitem (rooms s) room_id (fst (finalize_room e r)),
             snd (finalize_room e r)))
  /\ (forall room_id username ws, In (room_id, username, ws) (handlers s) ->
        exists r, get (rooms s) room_id = Some r).
Proof.
  intros Hrun.
  destruct (run_keeps_server_ok evs initial s out initial_ok Hrun)
    as (_ & _ & Hh & Ht).
  split.
  - intros rid when e Hin. destruct (contains_get _ _ (Ht _ Hin)) as [r Hr].
    exists r. split; [exact Hr|]. unfold end_round_after, finalize_round.
    simpl in Hr. rewrite Hr. now destruct (finalize_room e r).
  - intros rid u w Hin. exact (contains_get _ _ (Hh _ Hin)).
Qed.

(** X17. Rooms are never removed. A room that exists before a run of the
    server exists after it, whatever happens in the run. *)
Theorem rooms_are_never_removed evs : forall s s' out room_id,
  run int_of_str float_of_str s evs = Some (s', out) ->
  contains (rooms s) room_id = true ->
  contains (rooms s') room_id = true.
Proof.
  induction evs as [|[e ev] evs IH]; simpl; intros s s' out rid Hrun Hc.
  - inversion Hrun. now subst.
  - destruct (step int_of_str float_of_str e s ev) as [[s1 o1]|] eqn:Hs;
      [|discriminate].
    destruct (run int_of_str float_of_str s1 evs) as [[s2 o2]|] eqn:Hr;
      [|discriminate].
    inversion Hrun; subst. apply (IH s1 s' o2 rid Hr).
    clear IH Hr Hrun. unfold step in Hs.
    destruct ev as [k u w|k u w raw|k u w|k when].
    + destruct (existsb _ _); [discriminate|].
      rewrite ws_room_accept_join in Hs. inversion Hs; subst. simpl.
      rewrite contains_setitem, Hc. apply orb_true_r.
    + destruct (existsb _ _); [|discriminate].
      destruct (get (rooms s) k); [|discriminate].
      destruct (ws_room_message _ _ _ _ _ _ raw r) as [[o r'] out'].
      inversion Hs; subst. simpl.
      rewrite contains_setitem, Hc. apply orb_true_r.
    + destruct (existsb _ _); [|discriminate].
      destruct (get (rooms s) k); [|discriminate].
      inversion Hs; subst. simpl.
      rewrite contains_setitem, Hc. apply orb_true_r.
    + destruct (existsb _ _); [|discriminate].
      unfold end_round_after, finalize_round in Hs.
      destruct (get (rooms s) k).
      * destruct (finalize_room e r) as [r' out']. inversion Hs; subst. simpl.
        rewrite contains_setitem, Hc. apply orb_true_r.
      * inversion Hs; subst. exact Hc.
Qed.

End Kept.

(** ** Rooms apart *)

Section Apart.

Variable int_of_str : string -> option Z.
Variable float_of_str : string -> option float.

Lemma sends_within_broadcast e ws r r0 m :
  clients r0 = clients r -> sends_within ws r (broadcast_room e r0 m).
Proof.
  intros Hc w m' Hin. right. unfold broadcast_room in Hin.
  apply in_map_iff in Hin. destruct Hin as (w' & Heq & Hw).
  inversion Heq; subst. apply filter_In in Hw. rewrite <- Hc. tauto.
Qed.

Lemma sends_within_app ws r o1 o2 :
  sends_within ws r o1 -> sends_within ws r o2 -> sends_within ws r (o1 ++ o2).
Proof.
  intros H1 H2 w m Hin. apply in_app_or in Hin. destruct Hin; eauto.
Qed.

Lemma sends_within_own ws r m : sends_within (Some ws) r [SendText ws m].
Proof. intros w m' [H|[]]. inversion H. now left. Qed.

Lemma sends_within_nil ws r : sends_within ws r [].
Proof. intros w m []. Qed.

Lemma sends_within_task ws r room_id when :
  sends_within ws r [CreateTask room_id when].
Proof. intros w m [H|[]]. discriminate. Qed.

(** What one message sends goes to its own socket or to the clients of
    its room. *)
Lemma message_sends_within e room_id username ws raw r :
  sends_within (Some ws) r
    (snd (ws_room_message int_of_str float_of_str e room_id username ws raw r)).
Proof.
  destruct raw as [|v]; [apply sends_within_nil|].
  destruct v as [| | | | | |msg]; try apply sends_within_nil.
  unfold ws_room_message, bind, lift.
  cbn -[on_result on_request_start is_str].
  destruct (is_str _ "timesync"); [apply sends_within_own|].
  destruct (is_str _ "join"); [apply sends_within_own|].
  destruct (is_str _ "request_start").
  { unfold on_request_start, bind, modify, read, broadcast_here, emit.
    cbn -[broadcast_room]. apply sends_within_app.
    - now apply sends_within_broadcast.
    - apply sends_within_task. }
  destruct (is_str _ "result") eqn:Ht; [|apply sends_within_nil].
  destruct (start_time r) as [start|] eqn:Hs.
  - rewrite (on_result_active _ _ _ _ _ _ _ _ Hs), store_result_unfold.
    destruct (py_int _ _) as [c|]; [|apply sends_within_nil].
    destruct (py_float _ _) as [off|]; [|apply sends_within_nil].
    destruct (py_iter _) as [ts|]; [|apply sends_within_nil].
    destruct (count_valid _ _ _ _ _ _) as [n|]; [|apply sends_within_nil].
    destruct (Nat.eqb _ _); simpl.
    + apply sends_within_app; now apply sends_within_broadcast.
    + rewrite app_nil_r. now apply sends_within_broadcast.
  - unfold on_result, bind, read, send_text, emit. cbv beta iota.
    rewrite Hs. apply sends_within_own.
Qed.

(** X18. Rooms are apart. Whatever happens in one room (a connection, a
    message, a disconnection, a timer) leaves every other room as it was,
    and the texts it sends go to the socket it came on or to sockets that
    are clients of that room once it has happened: nothing is sent into
    another room. *)
Theorem rooms_are_apart e s ev s' out :
  step int_of_str float_of_str e s ev = Some (s', out) ->
  (forall k, k <> room_of ev -> get (rooms s') k = get (rooms s) k)
  /\ (forall w m, In (SendText w m) out ->
        socket_of ev = Some w
        \/ exists r', get (rooms s') (room_of ev) = Some r'
                      /\ In w (values (clients r'))).
Proof.
  assert (Hfin : forall rid r1 hs ts o,
             sends_within (socket_of ev) r1 o -> room_of ev = rid ->
             (forall k, k <> room_of ev ->
                get (rooms (mkServer (setitem (rooms s) rid r1) hs ts)) k
                = get (rooms s) k)
             /\ (forall w m, In (SendText w m) o ->
                   socket_of ev = Some w
                   \/ exists r',
                        get (rooms (mkServer (setitem (rooms s) rid r1) hs ts))
                          (room_of ev) = Some r'
                        /\ In w (values (clients r')))).
  { intros rid r1 hs ts o Hs <-. simpl. split.
    - intros k Hk. apply get_setitem_other. congruence.
    - intros w m Hin. destruct (Hs w m Hin) as [H|H]; [now left|].
      right. exists r1. now rewrite get_setitem_same. }
  destruct ev as [rid u w0|rid u w0 raw|rid u w0|rid when]; unfold step.
  - destruct (existsb _ _); [discriminate|].
    rewrite ws_room_accept_join. intros H. inversion H; subst; clear H.
    apply Hfin; [|reflexivity]. now apply sends_within_broadcast.
  - destruct (existsb _ _); [|discriminate].
    destruct (get (rooms s) rid) as [r|] eqn:Hr; [|discriminate].
    pose proof (message_sends_within e rid u w0 raw r) as Hm.
    pose proof (ws_room_message_effect int_of_str float_of_str e rid u w0
                  raw r) as He.
    destruct (ws_room_message _ _ _ _ _ _ raw r) as [[o r'] out'].
    destruct He as [Hc _]. simpl in Hm.
    intros H. inversion H; subst; clear H.
    apply Hfin; [|reflexivity].
    intros w m Hin. destruct (Hm w m Hin) as [H|H]; [now left|].
    right. now rewrite Hc.
  - destruct (existsb _ _); [|discriminate].
    destruct (get (rooms s) rid) as [r|] eqn:Hr; [|discriminate].
    intros H. inversion H; subst; clear H.
    apply Hfin; [|reflexivity]. now apply sends_within_broadcast.
  - destruct (existsb _ _); [|discriminate].
    unfold end_round_after, finalize_round.
    destruct (get (rooms s) rid) as [r|] eqn:Hr.
    + unfold finalize_room. intros H. inversion H; subst; clear H.
      apply Hfin; [|reflexivity]. now apply sends_within_broadcast.
    + intros H. inversion H; subst; clear H. split; [reflexivity|].
      intros w m [].
Qed.

End Apart.

(** ** The theorems of this part at work *)

Lemma unknown_type_is_ignored_witness :
  ws_room_message no_int no_float (at_time 104) "R" "alice" 1%nat
    (Json (JDict [("type", JStr "ping"); ("count", JInt 3)])) round_of_two
  = (Ret tt, round_of_two, []).
Proof.
  exact (unknown_type_is_ignored no_int no_float (at_time 104) "R" "alice"
           1%nat [("type", JStr "ping"); ("count", JInt 3)] round_of_two
           eq_refl eq_refl eq_refl eq_refl).
Defined.

Lemma join_then_leave_restores_witness :
  fst (ws_room_disconnect (at_time 105) "carol"
         (fst (ws_room_join (at_time 104) "carol" 3%nat round_of_two)))
  = round_of_two.
Proof.
  apply (join_then_leave_restores (at_time 104) (at_time 105) "carol" 3%nat
           round_of_two).
  - simpl. intuition discriminate.
  - simpl. tauto.
Defined.

Lemma resubmission_replaces_witness :
  store_result no_int no_float (at_time 105) "alice"
    (result_fields 7 0 [101]%float) 100
    (stored "alice" round_of_two 4 2 10)
  = (Ret tt, stored "alice" round_of_two 7 1 0,
     [SendText 1%nat (PartialResult "alice" 1);
      SendText 2%nat (PartialResult "alice" 1)])
  /\ len (results (stored "alice" round_of_two 7 1 0))
     = len (results (stored "alice" round_of_two 4 2 10)).
Proof.
  exact (resubmission_replaces no_int no_float (at_time 105) "alice"
           (result_fields 4 10 [90; 105]%float)
           (result_fields 7 0 [101]%float) 100 round_of_two
           (stored "alice" round_of_two 4 2 10)
           [SendText 1%nat (PartialResult "alice" 2);
            SendText 2%nat (PartialResult "alice" 2)]
           (stored "alice" round_of_two 7 1 0)
           [SendText 1%nat (PartialResult "alice" 1);
            SendText 2%nat (PartialResult "alice" 1)]
           eq_refl eq_refl).
Defined.

Lemma round_of_three_within_members : results_within_members round_of_three.
Proof.
  unfold results_within_members, wf. simpl. repeat split.
  - repeat constructor; simpl; intuition discriminate.
  - repeat constructor; simpl; intuition discriminate.
  - intros k [<-|[<-|[]]]; simpl; auto.
Qed.

(** Carol is the last of the three to submit: her result ends the round. *)
Lemma early_end_iff_all_submitted_witness :
  let res := ws_room_message no_int no_float (at_time 104) "R" "carol" 3%nat
               (result_message 1 0 [101]%float) round_of_three in
  start_time (snd (fst res)) = None
  <-> (forall u, In u (keys (clients round_of_three)) ->
         u = "carol" \/ In u (keys (results round_of_three))).
Proof.
  intros res.
  apply (early_end_iff_all_submitted no_int no_float (at_time 104) "R" "carol"
           3%nat (result_fields 1 0 [101]%float) 100 round_of_three
           (snd (fst res)) (snd res) round_of_three_within_members).
  - simpl. auto.
  - reflexivity.
  - reflexivity.
  - reflexivity.
Defined.

Lemma early_ranking_is_of_submissions_witness :
  let res := ws_room_message no_int no_float (at_time 104) "R" "carol" 3%nat
               (result_message 1 0 [101]%float) round_of_three in
  exists r1 o1,
    store_result no_int no_float (at_time 104) "carol"
      (result_fields 1 0 [101]%float) 100 round_of_three = (Ret tt, r1, o1)
    /\ last_ranking (snd (fst res)) = Some (build_ranking (results r1))
    /\ results (snd (fst res)) = []
    /\ forall w, In w (values (clients round_of_three)) ->
         connected (at_time 104) w = true ->
         In (SendText w (RoundEnd (build_ranking (results r1)))) (snd res).
Proof.
  intros res.
  apply (early_ranking_is_of_submissions no_int no_float (at_time 104) "R"
           "carol" 3%nat (result_fields 1 0 [101]%float) 100 round_of_three
           (snd (fst res)) (snd res) round_of_three_within_members).
  - simpl. auto.
  - reflexivity.
  - reflexivity.
  - reflexivity.
  - reflexivity.
Defined.

Lemma ranking_lists_each_member_once_witness :
  Permutation
    (map entry_user
       (build_ranking (synthesize (results round_of_three)
                         (keys (clients round_of_three)))))
    ["alice"; "bob"; "carol"]
  /\ last_ranking (fst (finalize_room (at_time 117) round_of_three))
     = Some [mkRank "bob" 6 9; mkRank "alice" 4 5; mkRank "carol" 0 0].
Proof.
  exact (ranking_lists_each_member_once (at_time 117) round_of_three
           round_of_three_within_members).
Defined.

Lemma first_of_ranking_is_best_witness :
  entry_validated (mkRank "alice" 4 5) <= entry_validated (mkRank "bob" 6 9)
  /\ (entry_validated (mkRank "alice" 4 5) = entry_validated (mkRank "bob" 6 9)
      -> entry_reported (mkRank "alice" 4 5)
         <= entry_reported (mkRank "bob" 6 9)).
Proof.
  apply (first_of_ranking_is_best (results round_of_three) (mkRank "bob" 6 9)
           [mkRank "alice" 4 5]).
  - reflexivity.
  - simpl. auto.
Defined.

Lemma no_result_outside_a_round_witness :
  results (mkRoom [("alice", 1%nat)] [] None 15 (Some [mkRank "alice" 3 3]))
  = [].
Proof.
  exact (no_result_outside_a_round no_int no_float early_trace early_server
           early_output "R" _ eq_refl eq_refl eq_refl).
Defined.

Lemma rooms_stay_in_order_witness :
  let r := mkRoom [("alice", 1%nat)] [] None 15 (Some [mkRank "alice" 3 3]) in
  duration r = 15
  /\ (forall u x, get (results r) u = Some x -> 0 <= validated x)
  /\ (forall k, last_ranking r = Some k -> StronglySorted ranks_before k).
Proof.
  exact (rooms_stay_in_order no_int no_float early_trace early_server
           early_output "R" _ eq_refl eq_refl).
Defined.

Lemma timers_find_their_room_witness :
  (forall room_id when e, In (room_id, when) (tasks early_server) ->
     exists r,
       get (rooms early_server) room_id = Some r
       /\ end_round_after e (rooms early_server) room_id
          = (setitem (rooms early_server) room_id (fst (finalize_room e r)),
             snd (finalize_room e r)))
  /\ (forall room_id username ws,
        In (room_id, username, ws) (handlers early_server) ->
        exists r, get (rooms early_server) room_id = Some r).
Proof.
  exact (timers_find_their_room no_int no_float early_trace early_server
           early_output eq_refl).
Defined.

Lemma rooms_are_never_removed_witness :
  contains
    (rooms (mkServer
              [("R", mkRoom [("alice", 1%nat)] [] None 15
                       (Some [mkRank "alice" 0 0]))]
              [("R", "alice", 1%nat)] [])) "R" = true.
Proof.
  exact (rooms_are_never_removed no_int no_float
           [(at_time 117, TimerFires "R" 117%float)] early_server _
           [SendText 1%nat (RoundEnd [mkRank "alice" 0 0])] "R"
           eq_refl eq_refl).
Defined.

(** Bob, in room S, is not touched by what Carol does in room R. *)
Lemma rooms_are_apart_witness :
  let s := mkServer [("R", round_of_three); ("S", round_of_one)]
             [("R", "carol", 3%nat)] [] in
  let res := step no_int no_float (at_time 104) s
               (Receive "R" "carol" 3%nat (result_message 1 0 [101]%float)) in
  (forall k, k <> "R" ->
     get (rooms (mkServer
                   [("R", mkRoom (clients round_of_three) [] None 15
                            (Some [mkRank "bob" 6 9; mkRank "alice" 4 5;
                                   mkRank "carol" 1 1]));
                    ("S", round_of_one)] [("R", "carol", 3%nat)] [])) k
     = get (rooms s) k)
  /\ option_map (fun so => rooms (fst so)) res
     = Some [("R", mkRoom (clients round_of_three) [] None 15
                     (Some [mkRank "bob" 6 9; mkRank "alice" 4 5;
                            mkRank "carol" 1 1]));
             ("S", round_of_one)].
Proof.
  intros s res. split; [|reflexivity].
  exact (proj1 (rooms_are_apart no_int no_float (at_time 104) s
                  (Receive "R" "carol" 3%nat (result_message 1 0 [101]%float))
                  _ _ eq_refl)).
Defined.

(** ** The characters of a string *)

Module CodePoints.

Lemma is_continuation_range (c : ascii) :
  is_continuation c
  = ((128 <=? N_of_ascii c)%N && (N_of_ascii c <? 192)%N).
Proof.
  destruct c as [b0 b1 b2 b3 b4 b5 b6 b7].
  destruct b0, b1, b2, b3, b4, b5, b6, b7; reflexivity.
Qed.

Lemma is_continuation_byte (m : Z) :
  0 <= m < 256 ->
  is_continuation (byte m) = ((128 <=? m) && (m <? 192)).
Proof.
  intros Hm. unfold byte. rewrite is_continuation_range.
  rewrite N_ascii_embedding by lia.
  destruct (Z.leb_spec 128 m), (Z.ltb_spec m 192),
    (N.leb_spec 128 (Z.to_N m)), (N.ltb_spec (Z.to_N m) 192);
    simpl; try reflexivity; lia.
Qed.

Lemma byte_leads (m : Z) :
  (0 <= m < 128 \/ 192 <= m < 256) -> is_continuation (byte m) = false.
Proof.
  intros Hm. rewrite is_continuation_byte by lia.
  destruct (Z.leb_spec 128 m), (Z.ltb_spec m 192); simpl; try reflexivity; lia.
Qed.

Lemma byte_continues (m : Z) :
  128 <= m < 192 -> is_continuation (byte m) = true.
Proof.
  intros Hm. rewrite is_continuation_byte by lia.
  destruct (Z.leb_spec 128 m), (Z.ltb_spec m 192); simpl; try reflexivity; lia.
Qed.

Lemma split_lead c s :
  is_continuation c = false ->
  split_code_points (String c s)
  = (EmptyString,
     String c (fst (split_code_points s)) :: snd (split_code_points s)).
Proof.
  intros H. simpl. destruct (split_code_points s). now rewrite H.
Qed.

Lemma split_continuation c s :
  is_continuation c = true ->
  split_code_points (String c s)
  = (String c (fst (split_code_points s)), snd (split_code_points s)).
Proof.
  intros H. simpl. destruct (split_code_points s). now rewrite H.
Qed.

(** The encoding of a code point in front of a string that starts a
    character is one character more. *)
Lemma split_utf8 n s l :
  is_code_point n ->
  split_code_points s = (EmptyString, l) ->
  split_code_points (utf8 n ++ s) = (EmptyString, utf8 n :: l).
Proof.
  unfold is_code_point, utf8. intros Hn Hs.
  assert (H64 : 0 <= n mod 64 < 64) by (apply Z.mod_pos_bound; lia).
  assert (H64' : 0 <= (n / 64) mod 64 < 64) by (apply Z.mod_pos_bound; lia).
  assert (H64'' : 0 <= (n / 4096) mod 64 < 64) by (apply Z.mod_pos_bound; lia).
  destruct (Z.ltb_spec n 128); [|destruct (Z.ltb_spec n 2048);
    [|destruct (Z.ltb_spec n 65536)]]; cbn [append].
  - rewrite split_lead by (apply byte_leads; lia). now rewrite Hs.
  - assert (2 <= n / 64 < 32)
      by (split; [apply Z.div_le_lower_bound | apply Z.div_lt_upper_bound]; lia).
    rewrite split_lead by (apply byte_leads; lia).
    rewrite split_continuation by (apply byte_continues; lia).
    now rewrite Hs.
  - assert (0 <= n / 4096 < 16)
      by (split; [apply Z.div_le_lower_bound | apply Z.div_lt_upper_bound]; lia).
    rewrite split_lead by (apply byte_leads; lia).
    rewrite !split_continuation by (apply byte_continues; lia).
    now rewrite Hs.
  - assert (0 <= n / 262144 < 8)
      by (split; [apply Z.div_le_lower_bound | apply Z.div_lt_upper_bound]; lia).
    rewrite split_lead by (apply byte_leads; lia).
    rewrite !split_continuation by (apply byte_continues; lia).
    now rewrite Hs.
Qed.

Lemma split_encode cps :
  Forall is_code_point cps ->
  split_code_points (encode cps) = (EmptyString, map utf8 cps).
Proof.
  induction 1 as [|n cps Hn _ IH]; [reflexivity|].
  cbn [encode map]. now apply split_utf8.
Qed.

(** Iterating over a [str] yields its code points, one string each: the
    characters of the encoding of a sequence of code points are the
    encodings of the code points, in order and as many. *)
Lemma code_points_encode cps :
  Forall is_code_point cps ->
  code_points (encode cps) = map utf8 cps
  /\ List.length (chars (encode cps)) = List.length cps.
Proof.
  intros H. unfold chars, code_points. rewrite (split_encode cps H).
  split; [reflexivity|]. now rewrite !length_map.
Qed.

Lemma append_empty (s : string) : (s ++ EmptyString)%string = s.
Proof. induction s as [|c s IH]; simpl; congruence. Qed.

Lemma concat_cons (x : string) (l : list string) :
  String.concat EmptyString (x :: l)
  = (x ++ String.concat EmptyString l)%string.
Proof. destruct l; simpl; [now rewrite append_empty | reflexivity]. Qed.

Lemma split_concat (s : string) :
  (fst (split_code_points s)
   ++ String.concat EmptyString (snd (split_code_points s)))%string = s.
Proof.
  induction s as [|c s IH]; [reflexivity|].
  cbn [split_code_points]. destruct (split_code_points s) as [k l].
  cbn [fst snd] in IH. destruct (is_continuation c); cbn [fst snd].
  - cbn [append]. now rewrite IH.
  - rewrite concat_cons. cbn [append]. now rewrite IH.
Qed.

(** The characters put together are the string, encoding or not. *)
Lemma code_points_concat (s : string) :
  String.concat EmptyString (code_points s) = s.
Proof.
  unfold code_points. pose proof (split_concat s) as H.
  destruct (split_code_points s) as [k l]. cbn [fst snd] in H.
  destruct k as [|c k]; [exact H|]. now rewrite concat_cons.
Qed.

Lemma arabic_one_is_utf8 : utf8 1633 = arabic_one.
Proof. reflexivity. Qed.

End CodePoints.

(** A result whose timestamps are the string of the one character U+0661:
    the loop runs once, on that character, which [float] reads as 1.0; with
    the offset 100 the tap falls in the window [100, 115]. The submission
    is accepted, with one validated tap of one timestamp, and the handler
    goes on: the message is not malformed. *)
Lemma arabic_digit_timestamp_is_accepted :
  let msg := [("type", JStr "result"); ("count", JInt 1);
              ("offset", JFloat 100%float);
              ("timestamps", JStr arabic_one)] in
  py_iter (JStr arabic_one) = Ret [JStr arabic_one]
  /\ ws_room_message no_int float_of_arabic_one (at_time 104) "R" "alice"
       1%nat (Json (JDict msg)) round_of_two
     = (Ret tt, stored "alice" round_of_two 1 1 100,
        [SendText 1%nat (PartialResult "alice" 1);
         SendText 2%nat (PartialResult "alice" 1)])
  /\ ~ malformed no_int float_of_arabic_one (Json (JDict msg)) round_of_two.
Proof.
  intros msg. split; [reflexivity|]. split; [reflexivity|].
  intros H.
  apply (malformed_iff_raises no_int float_of_arabic_one (at_time 104) "R"
           "alice" 1%nat) in H.
  destruct H as [x Hx]. discriminate.
Qed.
